(** * Todo Collection Manager: store, routes and persistence adapter

    A shallow embedding of the todo application's state-bearing code:
    - [src/types/todo.ts]: the [Todo], [TodoFilter] records;
    - [src/store/todoStore.ts]: the client store and its mutators;
    - [src/utils/indexedDB.ts]: the [IndexedDBManager] adapter;
    - [src/app/api/todos/route.ts] and [src/app/api/todos/[id]/route.ts]:
      the collection and single-resource route handlers.
    - [src/store/uiStore.ts] and the handlers of the components
      [TodoList], [Header], [FilterDrawer], [TodoCard] and [TodoForm]
      that change or read this state.

    Timestamps are [Z] milliseconds, strings are [string] (ASCII text),
    JavaScript objects are finite maps from field names to values. *)

From Stdlib Require Import ZArith List String Ascii Bool Lia.
From Stdlib Require Import Sorting.Sorted.
From Stdlib Require OrderedTypeEx.
From stdpp Require Import gmap strings list fin_maps.

Set Warnings "-register-all".
Local Open Scope Z_scope.

(** ** String primitives of the host language *)

Module Str.

(** [String.prototype.toLowerCase], on ASCII letters. *)
Definition lower_ascii (c : ascii) : ascii :=
  let n := nat_of_ascii c in
  if (Nat.leb 65 n && Nat.leb n 90)%bool then ascii_of_nat (n + 32) else c.

Fixpoint toLowerCase (s : string) : string :=
  match s with
  | EmptyString => EmptyString
  | String c s' => String (lower_ascii c) (toLowerCase s')
  end.

(** [String.prototype.includes]: [sub] occurs in [s] at some offset. *)
Fixpoint includes (s sub : string) : bool :=
  String.prefix sub s ||
  match s with
  | EmptyString => false
  | String _ s' => includes s' sub
  end.

(** White space stripped by [String.prototype.trim] (ASCII range). *)
Definition is_space (c : ascii) : bool :=
  let n := nat_of_ascii c in
  (Nat.leb 9 n && Nat.leb n 13)%bool || Nat.eqb n 32.

Fixpoint trim_start (s : string) : string :=
  match s with
  | EmptyString => EmptyString
  | String c s' => if is_space c then trim_start s' else s
  end.

(** Drops trailing white space: a character is kept when it is not a
    space or something survives after it. *)
Fixpoint trim_end (s : string) : string :=
  match s with
  | EmptyString => EmptyString
  | String c s' =>
      match trim_end s' with
      | EmptyString => if is_space c then EmptyString else String c EmptyString
      | r => String c r
      end
  end.

Definition trim (s : string) : string := trim_end (trim_start s).

Definition is_empty (s : string) : bool :=
  match s with EmptyString => true | _ => false end.

Fixpoint all_space (s : string) : bool :=
  match s with
  | EmptyString => true
  | String c s' => is_space c && all_space s'
  end.

End Str.

(** ** Run-time values of the server side

    Request bodies and stored records are untyped at run time: a value is
    any JSON value or a [Date].  Numbers are integers here. *)

Inductive Val : Type :=
| VUndefined
| VNull
| VBool (b : bool)
| VNum (n : Z)
| VStr (s : string)
| VDate (t : option Z)            (* [None] is the Invalid Date *)
| VArr (l : list Val)
| VObj (o : list (string * Val)).  (* a nested object; never inspected *)

(** A top-level object: a request body or a todo record. *)
Abbreviation Obj := (gmap string Val).

(** What the host platform decides and the code cannot: how the [Date]
    constructor reads a value it must first turn into text, and the text
    [JSON.stringify] writes for a valid date. *)
Class Host := {
  Date_parse : Val -> option Z;
  toISOString : Z -> string;
}.

Module JS.

(** Property read [o.k]: a missing key reads as [undefined]. *)
Definition get (o : Obj) (k : string) : Val := default VUndefined (o !! k).

Definition truthy (v : Val) : bool :=
  match v with
  | VUndefined | VNull => false
  | VBool b => b
  | VNum n => negb (n =? 0)
  | VStr s => negb (Str.is_empty s)
  | VDate _ | VArr _ | VObj _ => true
  end.

Definition is_undefined (v : Val) : bool :=
  match v with VUndefined => true | _ => false end.

(** [typeof v === 'string'] *)
Definition is_string (v : Val) : bool :=
  match v with VStr _ => true | _ => false end.

(** [a === b]: objects, arrays and dates are compared by reference, and
    a value parsed from a request is never the stored reference. *)
Definition strict_eq (a b : Val) : bool :=
  match a, b with
  | VUndefined, VUndefined | VNull, VNull => true
  | VBool x, VBool y => Bool.eqb x y
  | VNum x, VNum y => x =? y
  | VStr x, VStr y => String.eqb x y
  | _, _ => false
  end.

(** [new Date(v)] *)
Definition newDate `{Host} (v : Val) : Val :=
  match v with
  | VDate t => VDate t
  | VUndefined => VDate None
  | VNull => VDate (Some 0)
  | VBool b => VDate (Some (if b then 1 else 0))
  | VNum n => VDate (if Z.abs n <=? 8640000000000000 then Some n else None)
  | VStr _ | VArr _ | VObj _ => VDate (Date_parse v)
  end.

(** [v?.trim()]: [undefined] on a nullish receiver, the trimmed text on
    a string, a [TypeError] ([None]) on anything else. *)
Definition opt_trim (v : Val) : option Val :=
  match v with
  | VUndefined | VNull => Some VUndefined
  | VStr s => Some (VStr (Str.trim s))
  | _ => None
  end.

(** The callback [tag => typeof tag === 'string' && tag.trim()]. *)
Definition keeps_tag (tag : Val) : bool :=
  match tag with
  | VStr s => negb (Str.is_empty (Str.trim s))
  | _ => false
  end.

(** [v.trim()]: a [TypeError] ([None]) unless [v] is a string. *)
Definition trim_call (v : Val) : option Val :=
  match v with
  | VStr s => Some (VStr (Str.trim s))
  | _ => None
  end.

(** [v.trim().length === 0], for a string [v]. *)
Definition trims_to_empty (v : Val) : bool :=
  match v with
  | VStr s => Str.is_empty (Str.trim s)
  | _ => false
  end.

(** [Array.isArray(v) ? v.filter(keeps_tag) : otherwise] *)
Definition filter_tags (otherwise : Val) (v : Val) : Val :=
  match v with
  | VArr l => VArr (List.filter keeps_tag l)
  | _ => otherwise
  end.

(** A destructuring default [x = d]: taken when the field is [undefined]. *)
Definition or_default (d v : Val) : Val :=
  if is_undefined v then d else v.

End JS.

(** ** Domain types ([src/types/todo.ts]) *)

Inductive Priority := low | medium | high.

Definition Priority_eqb (a b : Priority) : bool :=
  match a, b with
  | low, low | medium, medium | high, high => true
  | _, _ => false
  end.

Record Todo := mkTodo {
  id : string;
  title : string;
  description : option string;
  completed : bool;
  priority : Priority;
  dueDate : option Z;
  tags : list string;
  createdAt : Z;
  updatedAt : Z;
}.

Module TodoFilter.
Inductive Status := all | active | completed.

Record t := mk {
  status : option Status;
  priority : option Priority;
  tags : option (list string);
  search : option string;
}.

(** The initial filter [{}]. *)
Definition empty : t := mk None None None None.
End TodoFilter.

(** [Array.prototype.includes] on an array of strings. *)
Definition includes_str (l : list string) (s : string) : bool :=
  existsb (String.eqb s) l.

Module TodoStats.
Record t := mk {
  total : nat;
  completed : nat;
  active : nat;
  overdue : nat;
}.
End TodoStats.

(** ** The client store ([src/store/todoStore.ts]) *)

Module TodoStore.

Record TodoState := mkState {
  todos : list Todo;
  filter : TodoFilter.t;
  loading : bool;
  error : option string;
  editingTodo : option Todo;
}.

(** [Omit<Todo, 'id' | 'createdAt' | 'updatedAt'>]. *)
Record Draft := mkDraft {
  d_title : string;
  d_description : option string;
  d_completed : bool;
  d_priority : Priority;
  d_dueDate : option Z;
  d_tags : list string;
}.

(** [Partial<Todo>]: every field may be left out. *)
Record Patch := mkPatch {
  p_id : option string;
  p_title : option string;
  p_description : option string;
  p_completed : option bool;
  p_priority : option Priority;
  p_dueDate : option Z;
  p_tags : option (list string);
  p_createdAt : option Z;
  p_updatedAt : option Z;
}.

Definition no_patch : Patch :=
  mkPatch None None None None None None None None None.

(** [{ completed: b }]. *)
Definition patch_completed (b : bool) : Patch :=
  mkPatch None None None (Some b) None None None None None.

(** The calls of the [api] helper object, indexed by what they resolve to. *)
Inductive ApiCall : Type -> Type :=
| getTodos : ApiCall (list Todo)
| createTodo (todo : Draft) : ApiCall Todo
| updateTodo_api (id : string) (updates : Patch) : ApiCall Todo
| deleteTodo_api (id : string) : ApiCall unit
| bulkUpdate (ids : list string) (updates : Patch) : ApiCall (list Todo)
| bulkDelete (ids : list string) : ApiCall unit.

(** Outcome of an awaited promise. *)
Inductive Settled (A : Type) := Resolved (a : A) | Rejected.
Arguments Resolved {A} a.
Arguments Rejected {A}.

(** A mutator runs to its single [await]: either it returns without
    calling the API ([Done]), or it has written [st] with [set], issued
    [call], and resumes with [k] applied to the outcome and to the state
    current at that moment ([set(state => ...)]). *)
Inductive Step :=
| Done (st : TodoState)
| Await {R : Type} (st : TodoState) (call : ApiCall R)
        (k : Settled R -> TodoState -> TodoState).

Definition set_loading (st : TodoState) : TodoState :=
  mkState (todos st) (filter st) true None (editingTodo st).

Definition set_error (msg : string) (st : TodoState) : TodoState :=
  mkState (todos st) (filter st) false (Some msg) (editingTodo st).

Definition set_todos (ts : list Todo) (st : TodoState) : TodoState :=
  mkState ts (filter st) false (error st) (editingTodo st).

Definition loadTodos (st : TodoState) : Step :=
  Await (set_loading st) getTodos (fun r s =>
    match r with
    | Resolved ts => set_todos ts s
    | Rejected => set_error "Failed to load todos" s
    end).

Definition addTodo (todoData : Draft) (st : TodoState) : Step :=
  Await (set_loading st) (createTodo todoData) (fun r s =>
    match r with
    | Resolved newTodo => set_todos (newTodo :: todos s) s
    | Rejected => set_error "Failed to add todo" s
    end).

Definition updateTodo (i : string) (updates : Patch) (st : TodoState) : Step :=
  Await (set_loading st) (updateTodo_api i updates) (fun r s =>
    match r with
    | Resolved updatedTodo =>
        mkState
          (List.map (fun todo => if String.eqb (id todo) i then updatedTodo else todo)
                    (todos s))
          (filter s) false (error s) None
    | Rejected => set_error "Failed to update todo" s
    end).

Definition deleteTodo (i : string) (st : TodoState) : Step :=
  Await (set_loading st) (deleteTodo_api i) (fun r s =>
    match r with
    | Resolved _ =>
        set_todos (List.filter (fun todo => negb (String.eqb (id todo) i)) (todos s)) s
    | Rejected => set_error "Failed to delete todo" s
    end).

Definition deleteTodos (ids : list string) (st : TodoState) : Step :=
  Await (set_loading st) (bulkDelete ids) (fun r s =>
    match r with
    | Resolved _ =>
        set_todos (List.filter (fun todo => negb (includes_str ids (id todo))) (todos s)) s
    | Rejected => set_error "Failed to delete todos" s
    end).

Definition toggleTodo (i : string) (st : TodoState) : Step :=
  match List.find (fun t => String.eqb (id t) i) (todos st) with
  | Some todo => updateTodo i (patch_completed (negb (completed todo))) st
  | None => Done st
  end.

(** [{ ...todo, completed: c, updatedAt: new Date() }]. *)
Definition with_completed (c : bool) (now : Z) (todo : Todo) : Todo :=
  mkTodo (id todo) (title todo) (description todo) c (priority todo)
         (dueDate todo) (tags todo) (createdAt todo) now.

(** [now] is the client clock read by [new Date()] when the
    continuation runs. *)
Definition toggleTodos (now : Z) (ids : list string) (st : TodoState) : Step :=
  match List.find (fun t => includes_str ids (id t)) (todos st) with
  | None => Done st
  | Some firstTodo =>
      let newCompletedState := negb (completed firstTodo) in
      Await (set_loading st) (bulkUpdate ids (patch_completed newCompletedState))
        (fun r s =>
           match r with
           | Resolved _ =>
               set_todos
                 (List.map (fun todo =>
                    if includes_str ids (id todo)
                    then with_completed newCompletedState now todo
                    else todo) (todos s)) s
           | Rejected => set_error "Failed to toggle todos" s
           end)
  end.

(** Runs a mutator to completion against an API that answers [api],
    with nothing interleaved during the suspension. *)
Definition run (api : forall R, ApiCall R -> Settled R) (m : Step) : TodoState :=
  match m with
  | Done st => st
  | Await st call k => k (api _ call) st
  end.

(** The request a mutator issues, if any. *)
Definition issues_call (m : Step) : bool :=
  match m with Done _ => false | Await _ _ _ => true end.

(** *** Derived views *)

Definition status_stage (f : TodoFilter.t) (l : list Todo) : list Todo :=
  match TodoFilter.status f with
  | Some TodoFilter.active => List.filter (fun todo => negb (completed todo)) l
  | Some TodoFilter.completed => List.filter (fun todo => completed todo) l
  | _ => l
  end.

Definition priority_stage (f : TodoFilter.t) (l : list Todo) : list Todo :=
  match TodoFilter.priority f with
  | Some p => List.filter (fun todo => Priority_eqb (priority todo) p) l
  | None => l
  end.

Definition tags_stage (f : TodoFilter.t) (l : list Todo) : list Todo :=
  match TodoFilter.tags f with
  | Some (tg :: tgs) =>
      List.filter (fun todo =>
        existsb (fun tag => includes_str (tags todo) tag) (tg :: tgs)) l
  | _ => l
  end.

Definition search_hit (searchLower : string) (todo : Todo) : bool :=
  Str.includes (Str.toLowerCase (title todo)) searchLower
  || match description todo with
     | Some d => negb (Str.is_empty d) && Str.includes (Str.toLowerCase d) searchLower
     | None => false
     end
  || existsb (fun tag => Str.includes (Str.toLowerCase tag) searchLower) (tags todo).

Definition search_stage (f : TodoFilter.t) (l : list Todo) : list Todo :=
  match TodoFilter.search f with
  | Some (String c s) =>
      let searchLower := Str.toLowerCase (String c s) in
      List.filter (search_hit searchLower) l
  | _ => l
  end.

(** [Array.prototype.sort] is stable; with the comparator
    [(a, b) => b.createdAt.getTime() - a.createdAt.getTime()] an element
    stays in front of a later one unless it is strictly older. *)
Fixpoint sort_insert (a : Todo) (l : list Todo) : list Todo :=
  match l with
  | [] => [a]
  | b :: l' =>
      if (createdAt b - createdAt a <=? 0) then a :: b :: l'
      else b :: sort_insert a l'
  end.

Fixpoint sort_newest_first (l : list Todo) : list Todo :=
  match l with
  | [] => []
  | a :: l' => sort_insert a (sort_newest_first l')
  end.

Definition getFilteredTodos (st : TodoState) : list Todo :=
  sort_newest_first
    (search_stage (filter st)
      (tags_stage (filter st)
        (priority_stage (filter st)
          (status_stage (filter st) (todos st))))).

(** *** Synchronous actions and the other derived views *)

(** [Partial<TodoFilter>] as an object: a key may be left out ([None]),
    or be there with a value that may be [undefined] ([Some None]). *)
Record FilterPatch := mkFilterPatch {
  fp_status : option (option TodoFilter.Status);
  fp_priority : option (option Priority);
  fp_tags : option (option (list string));
  fp_search : option (option string);
}.

(** [{ ...state.filter, ...newFilter }] *)
Definition merge_filter (f : TodoFilter.t) (newFilter : FilterPatch) : TodoFilter.t :=
  TodoFilter.mk
    (default (TodoFilter.status f) (fp_status newFilter))
    (default (TodoFilter.priority f) (fp_priority newFilter))
    (default (TodoFilter.tags f) (fp_tags newFilter))
    (default (TodoFilter.search f) (fp_search newFilter)).

Definition setFilter (newFilter : FilterPatch) (st : TodoState) : TodoState :=
  mkState (todos st) (merge_filter (filter st) newFilter)
          (loading st) (error st) (editingTodo st).

Definition clearFilter (st : TodoState) : TodoState :=
  mkState (todos st) TodoFilter.empty (loading st) (error st) (editingTodo st).

(** The test of the overdue count: [!todo.completed && todo.dueDate &&
    todo.dueDate < now]. *)
Definition counts_overdue (now : Z) (todo : Todo) : bool :=
  negb (completed todo)
  && match dueDate todo with
     | Some due => due <? now
     | None => false
     end.

(** [now] is the clock read by [new Date()]. *)
Definition getStats (now : Z) (st : TodoState) : TodoStats.t :=
  TodoStats.mk
    (List.length (todos st))
    (List.length (List.filter (fun todo => completed todo) (todos st)))
    (List.length (List.filter (fun todo => negb (completed todo)) (todos st)))
    (List.length (List.filter (counts_overdue now) (todos st))).

(** [new Set(allTags)] spread into an array: every value once, at the
    place of its first occurrence. *)
Definition set_add (acc : list string) (x : string) : list string :=
  if includes_str acc x then acc else acc ++ [x].

Definition set_of (l : list string) : list string := fold_left set_add l [].

(** [Array.prototype.sort()] without a comparator orders strings by
    their code units; an element stays in front of a later one unless it
    is strictly greater. *)
Fixpoint sort_insert_str (a : string) (l : list string) : list string :=
  match l with
  | [] => [a]
  | b :: l' => if String.leb a b then a :: b :: l' else b :: sort_insert_str a l'
  end.

Fixpoint sort_str (l : list string) : list string :=
  match l with
  | [] => []
  | a :: l' => sort_insert_str a (sort_str l')
  end.

Definition getAllTags (st : TodoState) : list string :=
  sort_str (set_of (List.flat_map (fun todo => tags todo) (todos st))).

End TodoStore.

(** ** The persistence adapter ([src/utils/indexedDB.ts]) *)

Module IndexedDB.

(** Keys of an object store: numbers, dates, strings and arrays of keys,
    ordered in that sequence of types. *)
Inductive Key :=
| KNum (n : Z)
| KDate (t : Z)
| KStr (s : string)
| KArr (l : list Key).

Fixpoint key_compare (a b : Key) {struct a} : comparison :=
  match a, b with
  | KNum x, KNum y => Z.compare x y
  | KNum _, _ => Lt
  | KDate _, KNum _ => Gt
  | KDate x, KDate y => Z.compare x y
  | KDate _, _ => Lt
  | KStr _, (KNum _ | KDate _) => Gt
  | KStr x, KStr y => String.compare x y
  | KStr _, KArr _ => Lt
  | KArr l, KArr m =>
      (fix go (l m : list Key) {struct l} : comparison :=
         match l, m with
         | [], [] => Eq
         | [], _ :: _ => Lt
         | _ :: _, [] => Gt
         | x :: l', y :: m' =>
             match key_compare x y with Eq => go l' m' | c => c end
         end) l m
  | KArr _, _ => Gt
  end.

Definition key_eqb (a b : Key) : bool :=
  match key_compare a b with Eq => true | _ => false end.

(** The key a value converts to; [None] raises [DataError]. *)
Fixpoint valid_key (v : Val) : option Key :=
  match v with
  | VNum n => Some (KNum n)
  | VStr s => Some (KStr s)
  | VDate (Some t) => Some (KDate t)
  | VArr l =>
      option_map KArr
        ((fix go (l : list Val) : option (list Key) :=
            match l with
            | [] => Some []
            | x :: l' =>
                match valid_key x, go l' with
                | Some k, Some ks => Some (k :: ks)
                | _, _ => None
                end
            end) l)
  | _ => None
  end.

(** The store [todos] with [keyPath: 'id']: its records in key order,
    and the outcomes the platform has in stock for the coming requests
    ([true]: the request, or opening the database for it, errors). *)
Record State := mkDB {
  records : list Obj;
  faults : list bool;
}.

Definition key_of (r : Obj) : option Key := valid_key (JS.get r "id").

Definition has_key (k : Key) (r : Obj) : bool :=
  match key_of r with Some k' => key_eqb k k' | None => false end.

Definition store_get (k : Key) (l : list Obj) : option Obj :=
  List.find (has_key k) l.

(** [IDBObjectStore.put]: replaces the record under [k] or inserts it at
    its place in key order. *)
Fixpoint store_put (k : Key) (r : Obj) (l : list Obj) : list Obj :=
  match l with
  | [] => [r]
  | x :: l' =>
      match key_of x with
      | None => x :: store_put k r l'
      | Some kx =>
          match key_compare k kx with
          | Lt => r :: x :: l'
          | Eq => r :: l'
          | Gt => x :: store_put k r l'
          end
      end
  end.

Definition store_delete (k : Key) (l : list Obj) : list Obj :=
  List.filter (fun x => negb (has_key k x)) l.

(** A promise of the adapter: the value it resolves to, or a rejection. *)
Inductive Outcome (A : Type) := Ok (a : A) | Throw.
Arguments Ok {A} a.
Arguments Throw {A}.

Definition M (A : Type) := State -> Outcome A * State.

Definition ret {A} (a : A) : M A := fun s => (Ok a, s).
Definition throw {A} : M A := fun s => (Throw, s).
Definition bind {A B} (m : M A) (k : A -> M B) : M B :=
  fun s => match m s with
           | (Ok a, s') => k a s'
           | (Throw, s') => (Throw, s')
           end.
Definition try_catch {A} (m : M A) (handler : M A) : M A :=
  fun s => match m s with
           | (Ok a, s') => (Ok a, s')
           | (Throw, s') => handler s'
           end.

(** Starts a request: consumes the next stocked outcome. *)
Definition request : M unit :=
  fun s => match faults s with
           | [] => (Ok tt, s)
           | false :: fs => (Ok tt, mkDB (records s) fs)
           | true :: fs => (Throw, mkDB (records s) fs)
           end.

(** The platform lets the next request through. *)
Definition next_ok (s : State) : Prop := hd false (faults s) = false.

(** The first component of a run: what the promise settled to. *)
Definition outcome {A} (r : Outcome A * State) : Outcome A := fst r.
Definition after {A} (r : Outcome A * State) : State := snd r.

Definition read_records : M (list Obj) := fun s => (Ok (records s), s).
Definition write_records (l : list Obj) : M unit :=
  fun s => (Ok tt, mkDB l (faults s)).

Section Adapter.
Context `{Host}.

(** The mapping applied to every record read back. *)
Definition revive (todo : Obj) : Obj :=
  <["dueDate" := if JS.truthy (JS.get todo "dueDate")
                 then JS.newDate (JS.get todo "dueDate") else VUndefined]>
    (<["updatedAt" := JS.newDate (JS.get todo "updatedAt")]>
       (<["createdAt" := JS.newDate (JS.get todo "createdAt")]> todo)).

Definition getAllTodos : M (list Obj) :=
  bind request (fun _ =>
  bind read_records (fun l => ret (List.map revive l))).

(** [store.add]: [ConstraintError] when the key is taken. *)
Definition addTodo (todo : Obj) : M unit :=
  bind request (fun _ =>
  match key_of todo with
  | None => throw
  | Some k =>
      bind read_records (fun l =>
      match store_get k l with
      | Some _ => throw
      | None => write_records (store_put k todo l)
      end)
  end).

(** [store.put] *)
Definition updateTodo (todo : Obj) : M unit :=
  bind request (fun _ =>
  match key_of todo with
  | None => throw
  | Some k => bind read_records (fun l => write_records (store_put k todo l))
  end).

(** [store.delete] *)
Definition deleteTodo (i : Val) : M unit :=
  bind request (fun _ =>
  match valid_key i with
  | None => throw
  | Some k => bind read_records (fun l => write_records (store_delete k l))
  end).

(** [filter: { completed?: boolean; priority?: string }] *)
Record ByFilter := mkByFilter {
  bf_completed : option bool;
  bf_priority : option string;
}.

(** [index('priority').getAll(p)]: the records whose [priority] is the
    key [p], in primary-key order. *)
Definition index_priority_getAll (p : string) (l : list Obj) : list Obj :=
  List.filter (fun r =>
    match valid_key (JS.get r "priority") with
    | Some k => key_eqb (KStr p) k
    | None => false
    end) l.

Definition getTodosByFilter (f : ByFilter) : M (list Obj) :=
  bind request (fun _ =>
  bind read_records (fun l =>
    let result :=
      match bf_priority f with
      | Some (String c p) => index_priority_getAll (String c p) l
      | _ => l
      end in
    let todos := List.map revive result in
    ret (match bf_completed f with
         | Some c =>
             List.filter (fun todo =>
               JS.strict_eq (JS.get todo "completed") (VBool c)) todos
         | None => todos
         end))).

End Adapter.

End IndexedDB.

(** ** The route handlers ([src/app/api/todos/route.ts],
       [src/app/api/todos/[id]/route.ts])

    A handler receives the parsed JSON body (an object), reads the server
    clock through [clock] (its [k]-th [new Date()] returns [clock k]) and
    runs against the adapter. *)

Module Routes.
Import IndexedDB.

Inductive Payload :=
| Error (error : string)
| TodoBody (todo : Obj)
| Updated (updated : list Obj) (count : nat)
| Deleted (deleted : list Val) (count : nat)
| Message (message : string).

Record Response := mkResponse { payload : Payload; status : nat }.

(** [NextResponse.json(p)] *)
Definition json (p : Payload) : Response := mkResponse p 200%nat.

(** A synchronous step that may raise. *)
Definition lift {A} (o : option A) : M A :=
  match o with Some a => ret a | None => throw end.

Definition is_array (v : Val) : bool :=
  match v with VArr _ => true | _ => false end.

Definition find_by_id (i : Val) (todos : list Obj) : option Obj :=
  List.find (fun t => JS.strict_eq (JS.get t "id") i) todos.

(** [Object.keys(updates).forEach(key => { if (updates[key] === undefined)
    delete updates[key] })] *)
Definition drop_undefined (updates : Obj) : Obj :=
  filter (fun kv => JS.is_undefined kv.2 = false) updates.

Section Handlers.
Context `{Host}.

(** The record [POST /api/todos] builds, from the destructured body and
    the trimmed title and description. *)
Definition new_todo (newId : string) (clock : nat -> Z)
           (title' description' priority dueDate tags : Val) : Obj :=
  <["id" := VStr newId]>
  (<["title" := title']>
  (<["description" := if JS.truthy description' then description' else VUndefined]>
  (<["completed" := VBool false]>
  (<["priority" := priority]>
  (<["dueDate" := if JS.truthy dueDate then JS.newDate dueDate else VUndefined]>
  (<["tags" := JS.filter_tags (VArr []) tags]>
  (<["createdAt" := VDate (Some (clock 0%nat))]>
  (<["updatedAt" := VDate (Some (clock 1%nat))]> ∅)))))))).

(** [!title || typeof title !== 'string' || title.trim().length === 0] *)
Definition rejects_title (title : Val) : bool :=
  negb (JS.truthy title) || negb (JS.is_string title) || JS.trims_to_empty title.

(** [POST /api/todos]; [newId] is the identifier the handler draws
    from the clock and the random generator. *)
Definition POST (newId : string) (clock : nat -> Z) (body : Obj) : M Response :=
  try_catch
    (let title := JS.get body "title" in
     let description := JS.get body "description" in
     let priority := JS.or_default (VStr "medium") (JS.get body "priority") in
     let dueDate := JS.get body "dueDate" in
     let tags := JS.or_default (VArr []) (JS.get body "tags") in
     if rejects_title title
     then ret (mkResponse
                 (Error "Title is required and must be a non-empty string") 400%nat)
     else
       bind (lift (JS.trim_call title)) (fun title' =>
       bind (lift (JS.opt_trim description)) (fun description' =>
       let newTodo := new_todo newId clock title' description' priority dueDate tags in
       bind (addTodo newTodo) (fun _ =>
       ret (mkResponse (TodoBody newTodo) 201%nat)))))
    (ret (mkResponse (Error "Failed to create todo") 500%nat)).

(** The loop of the bulk [PUT]; [n] counts the clock readings so far. *)
Fixpoint bulk_put_loop (clock : nat -> Z) (n : nat) (todos : list Obj)
         (updates : Obj) (ids : list Val) : M (list Obj) :=
  match ids with
  | [] => ret []
  | i :: rest =>
      match find_by_id i todos with
      | Some todo =>
          let updatedTodo : Obj :=
            <["updatedAt" := VDate (Some (clock n))]> (updates ∪ todo) in
          bind (updateTodo updatedTodo) (fun _ =>
          bind (bulk_put_loop clock (S n) todos updates rest) (fun us =>
          ret (updatedTodo :: us)))
      | None => bulk_put_loop clock n todos updates rest
      end
  end.

(** [PUT /api/todos] with body [{ ids, updates }]. *)
Definition PUT_bulk (clock : nat -> Z) (ids : Val) (updates : Obj) : M Response :=
  try_catch
    (match ids with
     | VArr (i :: rest) =>
         bind getAllTodos (fun todos =>
         bind (bulk_put_loop clock 0 todos updates (i :: rest)) (fun updatedTodos =>
         ret (json (Updated updatedTodos (List.length updatedTodos)))))
     | _ => ret (mkResponse (Error "IDs array is required") 400%nat)
     end)
    (ret (mkResponse (Error "Failed to update todos") 500%nat)).

(** The loop of the bulk [DELETE]: each delete has its own [try]. *)
Fixpoint bulk_delete_loop (ids : list Val) : M (list Val) :=
  match ids with
  | [] => ret []
  | i :: rest =>
      bind (try_catch (bind (deleteTodo i) (fun _ => ret true)) (ret false))
        (fun pushed =>
      bind (bulk_delete_loop rest) (fun ds =>
      ret (if pushed then i :: ds else ds)))
  end.

(** [DELETE /api/todos] with body [{ ids }]. *)
Definition DELETE_bulk (ids : Val) : M Response :=
  try_catch
    (match ids with
     | VArr (i :: rest) =>
         bind (bulk_delete_loop (i :: rest)) (fun deletedIds =>
         ret (json (Deleted deletedIds (List.length deletedIds))))
     | _ => ret (mkResponse (Error "IDs array is required") 400%nat)
     end)
    (ret (mkResponse (Error "Failed to delete todos") 500%nat)).

(** The patch [PUT /api/todos/[id]] prepares from the body, before the
    undefined fields are removed. *)
Definition prepare_updates (body : Obj) (title' description' : Val) : Obj :=
  <["tags" := JS.filter_tags VUndefined (JS.get body "tags")]>
  (<["dueDate" := if JS.truthy (JS.get body "dueDate")
                  then JS.newDate (JS.get body "dueDate") else VUndefined]>
  (<["description" := description']>
  (<["title" := title']> body))).

(** [{ ...existingTodo, ...updates, updatedAt: new Date() }] *)
Definition merge_update (now : Z) (existingTodo updates : Obj) : Obj :=
  <["updatedAt" := VDate (Some now)]> (updates ∪ existingTodo).

(** [PUT /api/todos/[id]] *)
Definition PUT (i : string) (clock : nat -> Z) (body : Obj) : M Response :=
  try_catch
    (if negb (JS.is_undefined (JS.get body "title"))
        && (negb (JS.is_string (JS.get body "title"))
            || JS.trims_to_empty (JS.get body "title"))
     then ret (mkResponse (Error "Title must be a non-empty string") 400%nat)
     else
       bind (lift (JS.opt_trim (JS.get body "title"))) (fun title' =>
       bind (lift (JS.opt_trim (JS.get body "description"))) (fun description' =>
       let updates := drop_undefined (prepare_updates body title' description') in
       bind getAllTodos (fun todos =>
       match find_by_id (VStr i) todos with
       | None => ret (mkResponse (Error "Todo not found") 404%nat)
       | Some existingTodo =>
           let updatedTodo := merge_update (clock 0%nat) existingTodo updates in
           bind (updateTodo updatedTodo) (fun _ =>
           ret (json (TodoBody updatedTodo)))
       end))))
    (ret (mkResponse (Error "Failed to update todo") 500%nat)).

(** [DELETE /api/todos/[id]] *)
Definition DELETE (i : string) : M Response :=
  try_catch
    (bind getAllTodos (fun todos =>
     match find_by_id (VStr i) todos with
     | None => ret (mkResponse (Error "Todo not found") 404%nat)
     | Some _ =>
         bind (deleteTodo (VStr i)) (fun _ =>
         ret (json (Message "Todo deleted successfully")))
     end))
    (ret (mkResponse (Error "Failed to delete todo") 500%nat)).

(** [PATCH /api/todos/[id]]: the body is merged as it is. *)
Definition PATCH (i : string) (clock : nat -> Z) (body : Obj) : M Response :=
  try_catch
    (bind getAllTodos (fun todos =>
     match find_by_id (VStr i) todos with
     | None => ret (mkResponse (Error "Todo not found") 404%nat)
     | Some existingTodo =>
         let updatedTodo := merge_update (clock 0%nat) existingTodo body in
         bind (updateTodo updatedTodo) (fun _ =>
         ret (json (TodoBody updatedTodo)))
     end))
    (ret (mkResponse (Error "Failed to patch todo") 500%nat)).

(** [GET /api/todos/[id]] *)
Definition GET (i : string) : M Response :=
  try_catch
    (bind getAllTodos (fun todos =>
     match find_by_id (VStr i) todos with
     | None => ret (mkResponse (Error "Todo not found") 404%nat)
     | Some todo => ret (json (TodoBody todo))
     end))
    (ret (mkResponse (Error "Failed to fetch todo") 500%nat)).

End Handlers.

End Routes.

(** ** Records as typed todos

    How a run-time record reads under the [Todo] interface. *)

Module Wire.

Definition as_string (v : Val) : option string :=
  match v with VStr s => Some s | _ => None end.

Definition as_bool (v : Val) : option bool :=
  match v with VBool b => Some b | _ => None end.

Definition as_date (v : Val) : option Z :=
  match v with VDate (Some t) => Some t | _ => None end.

Definition priority_name (p : Priority) : string :=
  match p with low => "low" | medium => "medium" | high => "high" end.

Definition as_priority (v : Val) : option Priority :=
  match v with
  | VStr s =>
      if String.eqb s "low" then Some low
      else if String.eqb s "medium" then Some medium
      else if String.eqb s "high" then Some high
      else None
  | _ => None
  end.

Definition as_tags (v : Val) : option (list string) :=
  match v with VArr l => mapM as_string l | _ => None end.

(** An optional field: left out, or of the expected type. *)
Definition as_optional {A} (read : Val -> option A) (v : Val) : option (option A) :=
  match v with
  | VUndefined => Some None
  | _ => option_map Some (read v)
  end.

Definition as_todo (o : Obj) : option Todo :=
  i ← as_string (JS.get o "id");
  t ← as_string (JS.get o "title");
  d ← as_optional as_string (JS.get o "description");
  c ← as_bool (JS.get o "completed");
  p ← as_priority (JS.get o "priority");
  due ← as_optional as_date (JS.get o "dueDate");
  tg ← as_tags (JS.get o "tags");
  ca ← as_date (JS.get o "createdAt");
  ua ← as_date (JS.get o "updatedAt");
  Some (mkTodo i t d c p due tg ca ua).

(** An optional field as a value. *)
Definition opt_val {A} (inj : A -> Val) (o : option A) : Val :=
  match o with Some a => inj a | None => VUndefined end.

(** The record has, field by field, the values of the todo. *)
Definition reads_as (o : Obj) (t : Todo) : Prop :=
  JS.get o "id" = VStr (id t) /\
  JS.get o "title" = VStr (title t) /\
  JS.get o "description" = opt_val VStr (description t) /\
  JS.get o "completed" = VBool (completed t) /\
  JS.get o "priority" = VStr (priority_name (priority t)) /\
  JS.get o "dueDate" = opt_val (fun z => VDate (Some z)) (dueDate t) /\
  JS.get o "tags" = VArr (List.map VStr (tags t)) /\
  JS.get o "createdAt" = VDate (Some (createdAt t)) /\
  JS.get o "updatedAt" = VDate (Some (updatedAt t)).

(** Neither an array nor an object. *)
Definition scalar (v : Val) : Prop :=
  match v with VArr _ | VObj _ => False | _ => True end.

(** The date fields of a record hold scalars. *)
Definition dates_scalar (o : Obj) : Prop :=
  scalar (JS.get o "createdAt") /\ scalar (JS.get o "updatedAt") /\
  scalar (JS.get o "dueDate").

(** The todos a list of records reads as. *)
Definition views (l : list Obj) : list Todo := omap as_todo l.

(** Every record of the store reads back as a todo. *)
Definition well_typed `{Host} (s : IndexedDB.State) : Prop :=
  Forall (fun r => is_Some (as_todo (IndexedDB.revive r))) (IndexedDB.records s).

End Wire.

(** ** The [api] helper of the store, end to end

    [fetch] carries the JSON text of the request to the route handler and
    the JSON text of the answer back; the helper rejects when the answer
    is not [ok] and otherwise reads the data, turning the date fields back
    into dates. *)

Module Api.
Import TodoStore IndexedDB.

Definition put_opt (k : string) (v : option Val) (o : Obj) : Obj :=
  match v with Some x => <[k := x]> o | None => o end.

Definition json_tags (l : list string) : Val := VArr (List.map VStr l).

Section Client.
Context `{Host}.

Definition json_date (t : Z) : Val := VStr (toISOString t).

(** [JSON.stringify(todo)] for a draft: absent fields are left out. *)
Definition json_of_draft (d : Draft) : Obj :=
  put_opt "description" (VStr <$> d_description d)
  (put_opt "dueDate" (json_date <$> d_dueDate d)
  (<["title" := VStr (d_title d)]>
  (<["completed" := VBool (d_completed d)]>
  (<["priority" := VStr (Wire.priority_name (d_priority d))]>
  (<["tags" := json_tags (d_tags d)]> ∅))))).


(** [JSON.stringify] on a value inside an array or an object: a date
    becomes its ISO text, the Invalid Date and [undefined] become null. *)
Fixpoint to_json_val (v : Val) : Val :=
  match v with
  | VUndefined => VNull
  | VDate (Some t) => json_date t
  | VDate None => VNull
  | VArr l => VArr (List.map to_json_val l)
  | VObj o =>
      VObj ((fix go (o : list (string * Val)) : list (string * Val) :=
               match o with
               | [] => []
               | (k, VUndefined) :: r => go r
               | (k, x) :: r => (k, to_json_val x) :: go r
               end) o)
  | _ => v
  end.

(** The answer as the client parses it: undefined fields are not sent. *)
Definition to_json (o : Obj) : Obj := to_json_val <$> Routes.drop_undefined o.

(** The mapping of [api.createTodo] and its siblings over the data. *)
Definition parse_dates (data : Obj) : Obj :=
  <["dueDate" := if JS.truthy (JS.get data "dueDate")
                 then JS.newDate (JS.get data "dueDate") else VUndefined]>
    (<["updatedAt" := JS.newDate (JS.get data "updatedAt")]>
       (<["createdAt" := JS.newDate (JS.get data "createdAt")]> data)).

(** The todo the client holds for an answered record, if it is one. *)
Definition client_read (o : Obj) : option Todo :=
  Wire.as_todo (parse_dates (to_json o)).

(** [response.ok] *)
Definition ok (r : Routes.Response) : bool :=
  Nat.leb 200 (Routes.status r) && Nat.leb (Routes.status r) 299.

(** What a helper that expects one todo settles to: [None] when the
    answer is [ok] but is not a todo. *)
Definition settle_todo (o : Outcome Routes.Response) : option (Settled Todo) :=
  match o with
  | Ok r =>
      if ok r then
        match Routes.payload r with
        | Routes.TodoBody u => Resolved <$> client_read u
        | _ => None
        end
      else Some Rejected
  | Throw => Some Rejected
  end.



Definition call_createTodo (newId : string) (clock : nat -> Z) (d : Draft) (db : State)
  : option (Settled Todo) * State :=
  let r := Routes.POST newId clock (json_of_draft d) db in (settle_todo (fst r), snd r).






Definition durable (i : string) (db : State) : option (option Todo) :=
  (fun r => Wire.as_todo (revive r)) <$> store_get (KStr i) (records db).




End Client.


(** The todo [POST] creates from a draft. *)
Definition create_from (d : Draft) (newId : string) (clock : nat -> Z) : Todo :=
  mkTodo newId (Str.trim (d_title d))
    (match d_description d with
     | Some s => if Str.is_empty (Str.trim s) then None else Some (Str.trim s)
     | None => None
     end)
    false (d_priority d) (d_dueDate d)
    (List.filter (fun s => negb (Str.is_empty (Str.trim s))) (d_tags d))
    (clock 0%nat) (clock 1%nat).

(** The host's date parser reads back what its printer writes. *)
Class HostLaws `{Host} : Prop := {
  iso_round_trip : forall t, Date_parse (VStr (toISOString t)) = Some t;
  iso_not_empty : forall t, toISOString t <> EmptyString;
}.


End Api.

(** ** What the filter is said to select

    The selection criteria in the words of the specification, to be
    compared with [TodoStore.getFilteredTodos]. *)

Module FilterSpec.

(** [q] occurs in [s], letter case ignored. *)
Definition contains_ci (s q : string) : Prop :=
  exists a b,
    Str.toLowerCase s = String.append a (String.append (Str.toLowerCase q) b).

Definition status_ok (f : TodoFilter.t) (t : Todo) : Prop :=
  match TodoFilter.status f with
  | Some TodoFilter.active => completed t = false
  | Some TodoFilter.completed => completed t = true
  | Some TodoFilter.all | None => True
  end.

Definition priority_ok (f : TodoFilter.t) (t : Todo) : Prop :=
  match TodoFilter.priority f with
  | Some p => priority t = p
  | None => True
  end.

(** The todo carries at least one tag of the filter's tag set. *)
Definition shares_tag (wanted : list string) (t : Todo) : Prop :=
  exists tag, In tag wanted /\ In tag (tags t).

(** The tags stage as stated: skipped only when the field is unset. *)
Definition tags_ok_stated (f : TodoFilter.t) (t : Todo) : Prop :=
  match TodoFilter.tags f with
  | Some wanted => shares_tag wanted t
  | None => True
  end.

(** The tags stage, skipped also for an empty tag list. *)
Definition tags_ok (f : TodoFilter.t) (t : Todo) : Prop :=
  match TodoFilter.tags f with
  | Some (tg :: tgs) => shares_tag (tg :: tgs) t
  | Some [] | None => True
  end.

Definition search_ok (f : TodoFilter.t) (t : Todo) : Prop :=
  match TodoFilter.search f with
  | Some q =>
      contains_ci (title t) q
      \/ (exists d, description t = Some d /\ contains_ci d q)
      \/ (exists tag, In tag (tags t) /\ contains_ci tag q)
  | None => True
  end.

Definition passes_stated (f : TodoFilter.t) (t : Todo) : Prop :=
  status_ok f t /\ priority_ok f t /\ tags_ok_stated f t /\ search_ok f t.

Definition passes (f : TodoFilter.t) (t : Todo) : Prop :=
  status_ok f t /\ priority_ok f t /\ tags_ok f t /\ search_ok f t.

(** The same criteria as a test that computes. *)
Definition hit (s q : string) : bool :=
  Str.includes (Str.toLowerCase s) (Str.toLowerCase q).

Definition passesb (f : TodoFilter.t) (t : Todo) : bool :=
  match TodoFilter.status f with
  | Some TodoFilter.active => negb (completed t)
  | Some TodoFilter.completed => completed t
  | Some TodoFilter.all | None => true
  end
  && match TodoFilter.priority f with
     | Some p => Priority_eqb (priority t) p
     | None => true
     end
  && match TodoFilter.tags f with
     | Some (tg :: tgs) => existsb (fun tag => includes_str (tags t) tag) (tg :: tgs)
     | Some [] | None => true
     end
  && match TodoFilter.search f with
     | Some q =>
         hit (title t) q
         || match description t with Some d => hit d q | None => false end
         || existsb (fun tag => hit tag q) (tags t)
     | None => true
     end.

(** Newest first. *)
Definition newer_or_same (a b : Todo) : Prop := createdAt b <= createdAt a.

End FilterSpec.

(** ** What the routes are said to do *)

Module RouteSpec.
Import IndexedDB.



(** A string that is not empty once trimmed. *)
Definition proper_tag (v : Val) : Prop :=
  exists s, v = VStr s /\ Str.trim s <> EmptyString.

(** A de-duplicated set of lower-case, non-empty strings. *)
Definition tags_invariant (v : Val) : Prop :=
  exists l : list string,
    v = VArr (List.map VStr l) /\ NoDup l /\
    Forall (fun s => s <> EmptyString /\ Str.toLowerCase s = s) l.


(** A field reads the same after a handler's run as in the existing
    record: in the todo the handler answers with, and in the record the
    store then keeps under the id, as [getAllTodos] reads it back. *)
Definition field_kept `{Host} (f : string) (existing : Obj) (i : string)
           (r : Outcome Routes.Response * State) : Prop :=
  (forall u st, outcome r = Ok (Routes.mkResponse (Routes.TodoBody u) st) ->
                JS.get u f = JS.get existing f) /\
  (forall raw', store_get (KStr i) (records (after r)) = Some raw' ->
                JS.get (revive raw') f = JS.get existing f).

(** A filter [{completed?, priority?}] as the adapter takes it ... *)
Definition by_filter (c : option bool) (p : option Priority) : ByFilter :=
  mkByFilter c (option_map Wire.priority_name p).

(** ... and as the store's filter state holds it. *)
Definition store_filter (c : option bool) (p : option Priority) : TodoFilter.t :=
  TodoFilter.mk
    (option_map (fun b : bool => if b then TodoFilter.completed else TodoFilter.active) c)
    p None None.

(** The two tests of the adapter, priority then completion, as one. *)
Definition adapter_keeps (c : option bool) (p : option Priority) (o : Obj) : bool :=
  match p with
  | Some p' =>
      match valid_key (JS.get o "priority") with
      | Some k => key_eqb (KStr (Wire.priority_name p')) k
      | None => false
      end
  | None => true
  end
  && match c with
     | Some c' => JS.strict_eq (JS.get o "completed") (VBool c')
     | None => true
     end.

(** The generic in-memory filter of the store, applied to what [getAll]
    returned. *)
Definition generic_filter (c : option bool) (p : option Priority)
           (all : list Obj) : list Todo :=
  TodoStore.getFilteredTodos
    (TodoStore.mkState (Wire.views all) (store_filter c p) false None None).



(** The run ends with an answer of status [st] and leaves the store with
    the records [recs]. *)
Definition answers (r : Outcome Routes.Response * State) (st : nat)
           (recs : list Obj) : Prop :=
  exists resp, outcome r = Ok resp /\ Routes.status resp = st /\
               records (after r) = recs.



(** A date field as [getAllTodos] hands it out. *)
Definition is_date (v : Val) : Prop := exists t, v = VDate t.

End RouteSpec.

(** ** The interface store ([src/store/uiStore.ts]) *)

Module UIStore.

Inductive Theme := light | dark | system.

Record UIState := mkUI {
  isAddTodoModalOpen : bool;
  isEditTodoModalOpen : bool;
  editingTodoId : option string;
  isDeleteConfirmModalOpen : bool;
  deletingTodoId : option string;
  isFilterDrawerOpen : bool;
  isMobileMenuOpen : bool;
  theme : Theme;
  isLoading : bool;
  loadingMessage : string;
  selectedTodoIds : list string;
  isBulkMode : bool;
}.

(** [set({ selectedTodoIds: ids, isBulkMode: b })] *)
Definition set_selection (ids : list string) (b : bool) (u : UIState) : UIState :=
  mkUI (isAddTodoModalOpen u) (isEditTodoModalOpen u) (editingTodoId u)
       (isDeleteConfirmModalOpen u) (deletingTodoId u) (isFilterDrawerOpen u)
       (isMobileMenuOpen u) (theme u) (isLoading u) (loadingMessage u) ids b.

Definition setTheme (t : Theme) (u : UIState) : UIState :=
  mkUI (isAddTodoModalOpen u) (isEditTodoModalOpen u) (editingTodoId u)
       (isDeleteConfirmModalOpen u) (deletingTodoId u) (isFilterDrawerOpen u)
       (isMobileMenuOpen u) t (isLoading u) (loadingMessage u)
       (selectedTodoIds u) (isBulkMode u).

Definition toggleTodoSelection (todoId : string) (u : UIState) : UIState :=
  let isSelected := includes_str (selectedTodoIds u) todoId in
  set_selection
    (if isSelected
     then List.filter (fun i => negb (String.eqb i todoId)) (selectedTodoIds u)
     else selectedTodoIds u ++ [todoId])
    (isBulkMode u) u.

Definition selectAllTodos (todoIds : list string) (u : UIState) : UIState :=
  set_selection todoIds (isBulkMode u) u.

Definition clearSelection (u : UIState) : UIState := set_selection [] false u.

Definition toggleBulkMode (u : UIState) : UIState :=
  set_selection (if isBulkMode u then [] else selectedTodoIds u)
                (negb (isBulkMode u)) u.

End UIStore.

(** ** Handlers of the components

    The state-changing handlers of [TodoList.tsx], [Header.tsx],
    [FilterDrawer.tsx], [TodoCard.tsx] and [TodoForm.tsx], as functions of
    the state they read. *)

Module Header.
Import UIStore.

(** [themes.indexOf(theme)] in [['light', 'dark', 'system']] *)
Definition index_of (t : Theme) : nat :=
  match t with light => 0 | dark => 1 | system => 2 end%nat.

Definition theme_at (n : nat) : Theme :=
  match n with 0 => light | 1 => dark | _ => system end%nat.

Definition cycleTheme (u : UIState) : UIState :=
  let currentIndex := index_of (theme u) in
  let nextIndex := ((currentIndex + 1) mod 3)%nat in
  setTheme (theme_at nextIndex) u.

(** [setFilter({ search: e.target.value })] *)
Definition handleSearchChange (value : string) (st : TodoStore.TodoState)
  : TodoStore.TodoState :=
  TodoStore.setFilter (TodoStore.mkFilterPatch None None None (Some (Some value))) st.

End Header.

Module TodoList.
Import UIStore.

(** [todos.length > 0 && selectedTodoIds.length === todos.length] *)
Definition allSelected (shown : list Todo) (u : UIState) : bool :=
  Nat.ltb 0 (List.length shown)
  && Nat.eqb (List.length (selectedTodoIds u)) (List.length shown).

(** [shown] is what [getFilteredTodos()] returned for this rendering. *)
Definition handleSelectAll (shown : list Todo) (u : UIState) : UIState :=
  if allSelected shown u then clearSelection u
  else selectAllTodos (List.map id shown) u.

Definition handleExitBulkMode (u : UIState) : UIState :=
  toggleBulkMode (clearSelection u).

(** [filter.status || filter.priority || filter.search ||
    (filter.tags && filter.tags.length > 0)], as a condition. *)
Definition hasFilters (f : TodoFilter.t) : bool :=
  match TodoFilter.status f with Some _ => true | None => false end
  || match TodoFilter.priority f with Some _ => true | None => false end
  || match TodoFilter.search f with Some s => negb (Str.is_empty s) | None => false end
  || match TodoFilter.tags f with Some (_ :: _) => true | _ => false end.

End TodoList.

Module FilterDrawer.
Import TodoStore.

Definition handleTagToggle (tag : string) (st : TodoState) : TodoState :=
  let currentTags := default [] (TodoFilter.tags (filter st)) in
  let newTags :=
    if includes_str currentTags tag
    then List.filter (fun t => negb (String.eqb t tag)) currentTags
    else currentTags ++ [tag] in
  setFilter
    (mkFilterPatch None None
       (Some (if Nat.ltb 0 (List.length newTags) then Some newTags else None)) None) st.

End FilterDrawer.

Module TodoCard.

(** [todo.dueDate && !todo.completed && new Date() > todo.dueDate] *)
Definition isOverdue (now : Z) (todo : Todo) : bool :=
  match dueDate todo with
  | Some due => negb (completed todo) && (due <? now)
  | None => false
  end.

End TodoCard.

Module TodoForm.

Record TodoFormData := mkForm {
  title : string;
  description : string;
  priority : Priority;
  dueDate : string;
  tags : list string;
}.

(** The state of the component the handlers below read and write. *)
Record FormState := mkFormState {
  formData : TodoFormData;
  tagInput : string;
}.

Definition with_tags (l : list string) (d : TodoFormData) : TodoFormData :=
  mkForm (title d) (description d) (priority d) (dueDate d) l.

Definition handleAddTag (fs : FormState) : FormState :=
  let tag := Str.toLowerCase (Str.trim (tagInput fs)) in
  if negb (Str.is_empty tag) && negb (includes_str (tags (formData fs)) tag)
  then mkFormState (with_tags (tags (formData fs) ++ [tag]) (formData fs)) EmptyString
  else fs.

Definition handleRemoveTag (tagToRemove : string) (fs : FormState) : FormState :=
  mkFormState
    (with_tags (List.filter (fun tag => negb (String.eqb tag tagToRemove))
                            (tags (formData fs))) (formData fs))
    (tagInput fs).

(** [validateForm]: [due] is the instant [new Date(formData.dueDate)]
    denotes ([None] for the Invalid Date), [today] the start of the
    current day. *)
Definition validateForm (due : option Z) (today : Z) (d : TodoFormData) : bool :=
  negb (Str.is_empty (Str.trim (title d)))
  && (Str.is_empty (dueDate d)
      || match due with Some t => negb (t <? today) | None => true end).

(** The data [handleSubmit] passes to the store, for a date text that is
    empty or denotes the instant [due]; [was_completed] is
    [todo?.completed || false]. *)
Definition todoData (due : Z) (was_completed : bool) (d : TodoFormData)
  : TodoStore.Draft :=
  TodoStore.mkDraft
    (Str.trim (title d))
    (if Str.is_empty (Str.trim (description d)) then None
     else Some (Str.trim (description d)))
    was_completed
    (priority d)
    (if Str.is_empty (dueDate d) then None else Some due)
    (tags d).

(** [handleSubmit] in add mode: the mutator it starts, if the form is valid. *)
Definition handleSubmit_add (due : Z) (today : Z) (d : TodoFormData)
           (st : TodoStore.TodoState) : option TodoStore.Step :=
  if validateForm (Some due) today d
  then Some (TodoStore.addTodo (todoData due false d) st)
  else None.

End TodoForm.

(** ** What the store and the form keep in order *)

Module StoreSpec.
Import TodoStore.

(** How a mutator leaves the flags of the store: one that returns at
    once leaves the state as it was; one that awaits a request ends with
    [loading] off and the filter as it was, with no error when the
    request resolved, and with an error, the todo list and the todo under
    edit as they were when it was rejected. *)
Definition settles (api : forall R, ApiCall R -> Settled R)
           (st : TodoState) (m : Step) : Prop :=
  match m with
  | Done st' => st' = st
  | Await _ call _ =>
      loading (run api m) = false /\ filter (run api m) = filter st /\
      match api _ call with
      | Resolved _ => error (run api m) = None
      | Rejected =>
          is_Some (error (run api m)) /\ todos (run api m) = todos st /\
          editingTodo (run api m) = editingTodo st
      end
  end.

(** Strictly increasing in the order of the code units. *)
Definition str_lt (a b : string) : Prop := String.compare a b = Lt.

End StoreSpec.

Module FormSpec.

(** The tags of the form are distinct, not empty and in lower case. *)
Definition clean_tags (l : list string) : Prop :=
  List.NoDup l /\
  Forall (fun s => s <> EmptyString /\ Str.toLowerCase s = s) l.

(** A text that does not begin with white space. *)
Definition head_kept (s : string) : Prop :=
  match s with EmptyString => True | String c _ => Str.is_space c = false end.

End FormSpec.

(** ** Sample data *)

Module Sample.
Import TodoStore.

Definition t1 : Todo := mkTodo "1" "Pay rent" None false medium None ["home"] 10 10.
Definition t2 : Todo := mkTodo "2" "Write report" (Some "quarterly") true high (Some 500) ["work"] 20 20.
Definition t3 : Todo := mkTodo "3" "Call Bob" None true low None [] 30 30.

Definition st0 : TodoState :=
  mkState [t3; t1; t2] TodoFilter.empty false None None.

(** An API that confirms bulk updates and rejects everything else. *)
Definition api_bulk_ok (R : Type) (call : ApiCall R) : Settled R :=
  match call in ApiCall R return Settled R with
  | bulkUpdate _ _ => Resolved []
  | _ => Rejected
  end.

Definition api_down (R : Type) (call : ApiCall R) : Settled R := Rejected.

(** A filter whose tag list is set but empty. *)
Definition filter_no_tags : TodoFilter.t :=
  TodoFilter.mk None None (Some []) None.

Definition st_no_tags : TodoState :=
  mkState [t1] filter_no_tags false None None.

Definition filter_work_done : TodoFilter.t :=
  TodoFilter.mk (Some TodoFilter.completed) None (Some ["work"; "urgent"]) (Some "REPORT").

(** Stored records, as the adapter holds them. *)
Definition rec1 : Obj :=
  <["id" := VStr "1"]> (<["title" := VStr "Pay rent"]>
  (<["completed" := VBool false]> (<["priority" := VStr "medium"]>
  (<["tags" := VArr [VStr "home"]]>
  (<["createdAt" := VDate (Some 10)]> (<["updatedAt" := VDate (Some 10)]> ∅)))))).

Definition rec2 : Obj :=
  <["id" := VStr "2"]> (<["title" := VStr "Write report"]>
  (<["description" := VStr "quarterly"]>
  (<["completed" := VBool true]> (<["priority" := VStr "high"]>
  (<["dueDate" := VDate (Some 500)]>
  (<["tags" := VArr [VStr "work"]]>
  (<["createdAt" := VDate (Some 20)]> (<["updatedAt" := VDate (Some 20)]> ∅)))))))).

Definition rec3 : Obj :=
  <["id" := VStr "3"]> (<["title" := VStr "Call Bob"]>
  (<["completed" := VBool true]> (<["priority" := VStr "low"]>
  (<["tags" := VArr []]>
  (<["createdAt" := VDate (Some 30)]> (<["updatedAt" := VDate (Some 30)]> ∅)))))).

Definition db0 : IndexedDB.State := IndexedDB.mkDB [rec1; rec2; rec3] [].

(** The platform fails the second request it receives. *)
Definition db_second_fails : IndexedDB.State :=
  IndexedDB.mkDB [rec1; rec2; rec3] [false; true; false].

(** Request bodies. *)
Definition body_scenario : Obj :=
  <["title" := VStr "  Pay rent  "]>
  (<["tags" := VArr [VStr "work"; VStr ""; VStr "  "; VNum 123; VNull; VStr "urgent"]]> ∅).


Definition body_mixed_tags : Obj :=
  <["title" := VStr "X"]> (<["tags" := VArr [VStr "Work"; VStr "Work"]]> ∅).

Definition body_due_null : Obj :=
  <["title" := VStr "New"]> (<["dueDate" := VNull]> ∅).

Definition body_toggle : Obj := <["completed" := VBool true]> ∅.



(** A host that writes an instant as a signed binary numeral and reads
    it back. *)
Fixpoint bits (p : positive) : string :=
  match p with
  | xH => "e"
  | xO q => String "0" (bits q)
  | xI q => String "1" (bits q)
  end.

Definition iso_text (z : Z) : string :=
  match z with
  | Z0 => "z"
  | Zpos p => String "+" (bits p)
  | Zneg p => String "-" (bits p)
  end.

Fixpoint read_bits (s : string) : option positive :=
  match s with
  | EmptyString => None
  | String c r =>
      if Ascii.eqb c "e" then (if Str.is_empty r then Some xH else None)
      else if Ascii.eqb c "0" then xO <$> read_bits r
      else if Ascii.eqb c "1" then xI <$> read_bits r
      else None
  end.

Definition read_text (v : Val) : option Z :=
  match v with
  | VStr (String c r) =>
      if Ascii.eqb c "z" then (if Str.is_empty r then Some 0 else None)
      else if Ascii.eqb c "+" then Zpos <$> read_bits r
      else if Ascii.eqb c "-" then Zneg <$> read_bits r
      else None
  | _ => None
  end.

Definition host_iso : Host :=
  {| Date_parse := read_text; toISOString := iso_text |}.

(** A host whose [Date] parser rejects every text. *)
Definition host0 : Host :=
  {| Date_parse := fun _ => None; toISOString := fun _ => EmptyString |}.
(** A todo that is due and not done, and a store that holds it. *)
Definition t4 : Todo :=
  mkTodo "4" "Renew pass" None false high (Some 300) ["travel"; "home"] 40 40.

Definition st1 : TodoState :=
  mkState [t4; t3; t1; t2] TodoFilter.empty false None None.

(** The platform fails the first request it receives. *)
Definition db_first_fails : IndexedDB.State :=
  IndexedDB.mkDB [rec1; rec2; rec3] [true].

Definition body_blank_title : Obj := <["title" := VStr "   "]> ∅.


(** Two ids selected in bulk mode. *)
Definition ui_bulk : UIStore.UIState :=
  UIStore.mkUI false false None false None false false UIStore.dark false
               EmptyString ["1"; "3"] true.

(** A filled-in form, with a tag being typed. *)
Definition form_rent : TodoForm.TodoFormData :=
  TodoForm.mkForm "  Pay rent " "   " high "2030-01-31" ["home"; "money"].

Definition form_state : TodoForm.FormState :=
  TodoForm.mkFormState form_rent "  Urgent ".

Definition draft_rent : Draft := TodoForm.todoData 2000 false form_rent.

(** An API that answers [createTodo] as the server does on [db0] with
    the id ["n1"] and a clock that stands at 99. *)
Definition api_server (R : Type) (call : ApiCall R) : Settled R :=
  match call in ApiCall R return Settled R with
  | createTodo d =>
      match fst (@Api.call_createTodo host_iso "n1" (fun _ => 99) d db0) with
      | Some r => r
      | None => Rejected
      end
  | _ => Rejected
  end.
End Sample.

(** * Properties *)

(** ** Strings *)

Lemma append_cons (c : ascii) (a b : string) :
  String.append (String c a) b = String c (String.append a b).
Proof. reflexivity. Qed.

Lemma append_nil (b : string) : String.append EmptyString b = b.
Proof. reflexivity. Qed.

Lemma prefix_app (sub s : string) :
  String.prefix sub s = true <-> exists b, s = String.append sub b.
Proof.
  revert s; induction sub as [|c sub IH]; intros s; simpl.
  - split; [intros _; exists s; reflexivity | intros _; destruct s; reflexivity].
  - destruct s as [|d s]; simpl.
    + split; [discriminate | intros [b Hb]; discriminate].
    + destruct (Ascii.ascii_dec c d) as [->|Hcd].
      * rewrite IH. split; intros [b Hb]; exists b;
          rewrite append_cons in *; congruence.
      * split; [discriminate | intros [b Hb]; rewrite append_cons in Hb; congruence].
Qed.

Lemma includes_nil (sub : string) :
  Str.includes EmptyString sub = String.prefix sub EmptyString || false.
Proof. reflexivity. Qed.

Lemma includes_cons (c : ascii) (s sub : string) :
  Str.includes (String c s) sub = String.prefix sub (String c s) || Str.includes s sub.
Proof. reflexivity. Qed.

(** [includes] decides occurrence as a contiguous substring. *)
Lemma includes_spec (s sub : string) :
  Str.includes s sub = true <->
  exists a b, s = String.append a (String.append sub b).
Proof.
  induction s as [|c s IH].
  - rewrite includes_nil, orb_false_r, prefix_app. split.
    + intros [b Hb]. exists EmptyString, b. exact Hb.
    + intros [a [b Hab]]. destruct a.
      * rewrite append_nil in Hab. eauto.
      * rewrite append_cons in Hab. discriminate.
  - rewrite includes_cons, orb_true_iff, IH, prefix_app. split.
    + intros [[b Hb] | [a [b Hab]]].
      * exists EmptyString, b. exact Hb.
      * exists (String c a), b. rewrite append_cons. congruence.
    + intros [a [b Hab]]. destruct a as [|d a].
      * left. rewrite append_nil in Hab. eauto.
      * right. rewrite append_cons in Hab. exists a, b. congruence.
Qed.

Lemma includes_empty (s : string) : Str.includes s EmptyString = true.
Proof. destruct s; reflexivity. Qed.

Lemma trim_end_empty (s : string) :
  Str.trim_end s = EmptyString <-> Str.all_space s = true.
Proof.
  induction s as [|c s IH]; simpl; [tauto|].
  destruct (Str.trim_end s) eqn:E.
  - destruct (Str.is_space c); simpl.
    + rewrite <- IH. tauto.
    + split; discriminate.
  - rewrite andb_true_iff, <- IH. split; [discriminate | intros [_ ?]; discriminate].
Qed.

Lemma trim_start_all_space (s : string) :
  Str.all_space (Str.trim_start s) = Str.all_space s.
Proof.
  induction s as [|c s IH]; simpl; [reflexivity|].
  destruct (Str.is_space c) eqn:E; simpl; [exact IH | rewrite E; reflexivity].
Qed.

(** A string trims to nothing exactly when it is all white space. *)
Lemma trim_blank (s : string) :
  Str.trim s = EmptyString <-> Str.all_space s = true.
Proof. unfold Str.trim. rewrite trim_end_empty, trim_start_all_space. tauto. Qed.

Lemma includes_str_In (l : list string) (s : string) :
  includes_str l s = true <-> In s l.
Proof.
  unfold includes_str. rewrite existsb_exists. split.
  - intros [x [Hx Heq]]. apply String.eqb_eq in Heq. congruence.
  - intros Hin. exists s. split; [exact Hin | apply String.eqb_refl].
Qed.

Lemma includes_str_not_In (l : list string) (s : string) :
  includes_str l s = false <-> ~ In s l.
Proof.
  rewrite <- includes_str_In. destruct (includes_str l s); split; congruence.
Qed.

(** ** C1: bulk toggle *)

Import TodoStore.

Lemma find_first_match {A} (p : A -> bool) (pre : list A) (x : A) (post : list A) :
  (forall y, In y pre -> p y = false) -> p x = true ->
  List.find p (pre ++ x :: post) = Some x.
Proof.
  intros Hpre Hx. induction pre as [|y pre IH]; simpl.
  - rewrite Hx. reflexivity.
  - rewrite (Hpre y (or_introl eq_refl)). apply IH.
    intros z Hz. apply Hpre. right. exact Hz.
Qed.

Lemma find_no_match {A} (p : A -> bool) (l : list A) :
  (forall y, In y l -> p y = false) -> List.find p l = None.
Proof.
  intros Hl. induction l as [|y l IH]; simpl; [reflexivity|].
  rewrite (Hl y (or_introl eq_refl)). apply IH.
  intros z Hz. apply Hl. right. exact Hz.
Qed.

(** C1. [toggleTodos] takes as reference the [completed] flag of the first
    todo, in list order, whose id occurs in [ids]; when the bulk update
    succeeds every todo whose id occurs in [ids] gets the inverse of that
    one flag, whatever its own flag was, and the other todos are kept;
    when no id matches, the call returns at once: no request is issued
    and the state is the same. *)
Theorem C1_toggleTodos_first_match_wins (now : Z) (ids : list string) (st : TodoState) :
  ((forall t, In t (todos st) -> ~ In (id t) ids) ->
     toggleTodos now ids st = Done st) /\
  (forall (pre : list Todo) (first : Todo) (post : list Todo)
          (api : forall R, ApiCall R -> Settled R) (updated : list Todo),
     todos st = pre ++ first :: post ->
     (forall t, In t pre -> ~ In (id t) ids) ->
     In (id first) ids ->
     api _ (bulkUpdate ids (patch_completed (negb (completed first)))) = Resolved updated ->
     let st' := run api (toggleTodos now ids st) in
     List.map id (todos st') = List.map id (todos st) /\
     (forall t', In t' (todos st') -> In (id t') ids ->
                 completed t' = negb (completed first)) /\
     (forall t', In t' (todos st') -> ~ In (id t') ids -> In t' (todos st)) /\
     todos st' =
       List.map (fun t => if includes_str ids (id t)
                          then with_completed (negb (completed first)) now t
                          else t) (todos st)).
Proof.
  split.
  - intros Hnone. unfold toggleTodos.
    rewrite find_no_match; [reflexivity|].
    intros y Hy. apply includes_str_not_In. auto.
  - intros pre first post api updated Hsplit Hpre Hfirst Hapi st'.
    assert (Hst' : todos st' =
      List.map (fun t => if includes_str ids (id t)
                         then with_completed (negb (completed first)) now t
                         else t) (todos st)).
    { subst st'. unfold toggleTodos. rewrite Hsplit.
      rewrite find_first_match.
      - simpl. rewrite Hapi. simpl. rewrite Hsplit. reflexivity.
      - intros y Hy. apply includes_str_not_In. auto.
      - apply includes_str_In. exact Hfirst. }
    repeat split; try exact Hst'.
    + rewrite Hst', List.map_map. apply List.map_ext.
      intros t. destruct (includes_str ids (id t)); reflexivity.
    + intros t' Hin Hids. rewrite Hst' in Hin.
      apply List.in_map_iff in Hin as [t [Ht _]].
      destruct (includes_str ids (id t)) eqn:E; subst t'; [reflexivity|].
      apply includes_str_not_In in E. contradiction.
    + intros t' Hin Hids. rewrite Hst' in Hin.
      apply List.in_map_iff in Hin as [t [Ht Hint]].
      destruct (includes_str ids (id t)) eqn:E; subst t'; [|exact Hint].
      apply includes_str_In in E. simpl in Hids. contradiction.
Qed.

(** The first match of C1 at work: with todos "3", "1", "2" and ids
    ["2"; "1"], todo "1" is the reference although "2" comes first in ids. *)
Lemma C1_toggleTodos_witness :
  (toggleTodos 99 ["7"] Sample.st0 = Done Sample.st0) /\
  List.map completed
    (todos (run Sample.api_bulk_ok (toggleTodos 99 ["2"; "1"] Sample.st0)))
  = [true; true; true].
Proof.
  destruct (C1_toggleTodos_first_match_wins 99 ["7"] Sample.st0) as [Hnone _].
  destruct (C1_toggleTodos_first_match_wins 99 ["2"; "1"] Sample.st0) as [_ Hsome].
  split.
  - apply Hnone. intros t Hin Hid. simpl in Hin.
    destruct Hin as [<-|[<-|[<-|[]]]]; simpl in Hid;
      destruct Hid as [Hid|[]]; discriminate Hid.
  - destruct (Hsome [Sample.t3] Sample.t1 [Sample.t2] Sample.api_bulk_ok [])
      as (_ & _ & _ & Heq).
    + reflexivity.
    + intros t [<-|[]] Hid. simpl in Hid.
      destruct Hid as [Hid|[Hid|[]]]; discriminate Hid.
    + simpl. right. left. reflexivity.
    + reflexivity.
    + rewrite Heq. reflexivity.
Defined.

(** ** C2: the filtered view *)

Lemma filter_filter {A} (p q : A -> bool) (l : list A) :
  List.filter p (List.filter q l) = List.filter (fun x => q x && p x) l.
Proof.
  induction l as [|x l IH]; simpl; [reflexivity|].
  destruct (q x); simpl; [destruct (p x)|]; rewrite IH; reflexivity.
Qed.

Lemma filter_all {A} (l : list A) : List.filter (fun _ => true) l = l.
Proof. induction l as [|x l IH]; simpl; [|rewrite IH]; reflexivity. Qed.

Lemma sort_insert_perm (a : Todo) (l : list Todo) :
  Permutation (sort_insert a l) (a :: l).
Proof.
  induction l as [|b l IH]; simpl; [reflexivity|].
  destruct (createdAt b - createdAt a <=? 0); [reflexivity|].
  rewrite IH. apply perm_swap.
Qed.

Lemma sort_newest_first_perm (l : list Todo) :
  Permutation (sort_newest_first l) l.
Proof.
  induction l as [|a l IH]; simpl; [reflexivity|].
  rewrite sort_insert_perm, IH. reflexivity.
Qed.

Lemma sort_insert_sorted (a : Todo) (l : list Todo) :
  StronglySorted FilterSpec.newer_or_same l ->
  StronglySorted FilterSpec.newer_or_same (sort_insert a l).
Proof.
  induction 1 as [|b l Hs IH Hb]; simpl.
  - constructor; constructor.
  - destruct (createdAt b - createdAt a <=? 0) eqn:E.
    + apply Z.leb_le in E. constructor; [constructor; assumption|].
      constructor; [unfold FilterSpec.newer_or_same; lia|].
      eapply Forall_impl; [exact Hb|]. unfold FilterSpec.newer_or_same.
      intros c Hc. lia.
    + apply Z.leb_gt in E. constructor; [exact IH|].
      eapply Permutation_Forall; [symmetry; apply sort_insert_perm|].
      constructor; [unfold FilterSpec.newer_or_same; lia | exact Hb].
Qed.

Lemma sort_newest_first_sorted (l : list Todo) :
  StronglySorted FilterSpec.newer_or_same (sort_newest_first l).
Proof.
  induction l as [|a l IH]; simpl; [constructor | apply sort_insert_sorted, IH].
Qed.

Lemma Priority_eqb_eq (a b : Priority) : Priority_eqb a b = true <-> a = b.
Proof. destruct a, b; simpl; split; congruence. Qed.

Lemma hit_spec (s q : string) :
  FilterSpec.hit s q = true <-> FilterSpec.contains_ci s q.
Proof. apply includes_spec. Qed.

(** The boolean test decides the criteria. *)
Lemma passesb_spec (f : TodoFilter.t) (t : Todo) :
  FilterSpec.passesb f t = true <-> FilterSpec.passes f t.
Proof.
  unfold FilterSpec.passesb, FilterSpec.passes.
  rewrite !andb_true_iff.
  assert (Hst : (match TodoFilter.status f with
                 | Some TodoFilter.active => negb (completed t)
                 | Some TodoFilter.completed => completed t
                 | _ => true end) = true <-> FilterSpec.status_ok f t).
  { unfold FilterSpec.status_ok.
    destruct (TodoFilter.status f) as [[]|]; try tauto;
      destruct (completed t); simpl; split; congruence. }
  assert (Hpr : (match TodoFilter.priority f with
                 | Some p => Priority_eqb (priority t) p
                 | None => true end) = true <-> FilterSpec.priority_ok f t).
  { unfold FilterSpec.priority_ok.
    destruct (TodoFilter.priority f); [apply Priority_eqb_eq | tauto]. }
  assert (Htg : (match TodoFilter.tags f with
                 | Some (tg :: tgs) =>
                     existsb (fun tag => includes_str (tags t) tag) (tg :: tgs)
                 | _ => true end) = true <-> FilterSpec.tags_ok f t).
  { unfold FilterSpec.tags_ok, FilterSpec.shares_tag.
    destruct (TodoFilter.tags f) as [[|tg tgs]|]; try tauto.
    rewrite existsb_exists. split; intros [tag [H1 H2]]; exists tag;
      (split; [exact H1 | apply includes_str_In; exact H2]). }
  assert (Hse : (match TodoFilter.search f with
                 | Some q =>
                     FilterSpec.hit (title t) q
                     || match description t with
                        | Some d => FilterSpec.hit d q | None => false end
                     || existsb (fun tag => FilterSpec.hit tag q) (tags t)
                 | None => true end) = true <-> FilterSpec.search_ok f t).
  { unfold FilterSpec.search_ok.
    destruct (TodoFilter.search f) as [q|]; [|tauto].
    rewrite !orb_true_iff, hit_spec, existsb_exists.
    assert (Hd : (match description t with
                  | Some d => FilterSpec.hit d q | None => false end) = true
                 <-> exists d, description t = Some d /\ FilterSpec.contains_ci d q).
    { destruct (description t) as [d|].
      - rewrite hit_spec. split; [eauto | intros [d' [[= <-] Hc]]; exact Hc].
      - split; [discriminate | intros [d [Hd _]]; discriminate]. }
    rewrite Hd.
    assert (Ht : (exists x, In x (tags t) /\ FilterSpec.hit x q = true)
                 <-> exists tag, In tag (tags t) /\ FilterSpec.contains_ci tag q).
    { split; intros [x [H1 H2]]; exists x; (split; [exact H1 | apply hit_spec; exact H2]). }
    rewrite Ht. tauto. }
  tauto.
Qed.

(** The stages of the code, run one after the other, keep what the
    single test keeps. *)
Lemma stages_filter (f : TodoFilter.t) (l : list Todo) :
  search_stage f (tags_stage f (priority_stage f (status_stage f l)))
  = List.filter (FilterSpec.passesb f) l.
Proof.
  assert (H1 : status_stage f l = List.filter (fun t =>
            match TodoFilter.status f with
            | Some TodoFilter.active => negb (completed t)
            | Some TodoFilter.completed => completed t
            | _ => true end) l).
  { unfold status_stage. destruct (TodoFilter.status f) as [[]|];
      try reflexivity; symmetry; apply filter_all. }
  rewrite H1. clear H1.
  assert (H2 : forall l', priority_stage f l' = List.filter (fun t =>
            match TodoFilter.priority f with
            | Some p => Priority_eqb (priority t) p
            | None => true end) l').
  { intros l'. unfold priority_stage. destruct (TodoFilter.priority f);
      [reflexivity | symmetry; apply filter_all]. }
  rewrite H2. clear H2.
  assert (H3 : forall l', tags_stage f l' = List.filter (fun t =>
            match TodoFilter.tags f with
            | Some (tg :: tgs) =>
                existsb (fun tag => includes_str (tags t) tag) (tg :: tgs)
            | _ => true end) l').
  { intros l'. unfold tags_stage. destruct (TodoFilter.tags f) as [[|tg tgs]|];
      try reflexivity; symmetry; apply filter_all. }
  rewrite H3. clear H3.
  assert (H4 : forall l', search_stage f l' = List.filter (fun t =>
            match TodoFilter.search f with
            | Some q =>
                FilterSpec.hit (title t) q
                || match description t with
                   | Some d => FilterSpec.hit d q | None => false end
                || existsb (fun tag => FilterSpec.hit tag q) (tags t)
            | None => true end) l').
  { intros l'. unfold search_stage.
    destruct (TodoFilter.search f) as [[|c q]|].
    - symmetry. erewrite List.filter_ext; [apply filter_all|].
      intros t. unfold FilterSpec.hit. simpl. rewrite includes_empty. reflexivity.
    - apply List.filter_ext. intros t. unfold search_hit, FilterSpec.hit.
      destruct (description t) as [[|d ds]|]; reflexivity.
    - symmetry. apply filter_all. }
  rewrite H4. clear H4.
  rewrite !filter_filter. apply List.filter_ext. intros t.
  unfold FilterSpec.passesb. rewrite !andb_assoc. reflexivity.
Qed.

(** C2, as amended. [getFilteredTodos] returns exactly the todos that pass
    every active stage (status, priority, at least one shared tag, and the
    case-insensitive search over title, description and tags), each as
    often as it is listed; a stage is skipped when its field is unset, and
    the tags stage also when the tag list is empty; the result is sorted
    newest first. *)
Theorem C2_getFilteredTodos_selects_and_sorts (st : TodoState) :
  Permutation (getFilteredTodos st)
              (List.filter (FilterSpec.passesb (filter st)) (todos st)) /\
  (forall t, FilterSpec.passesb (filter st) t = true <-> FilterSpec.passes (filter st) t) /\
  (forall t, In t (getFilteredTodos st) <->
             In t (todos st) /\ FilterSpec.passes (filter st) t) /\
  StronglySorted FilterSpec.newer_or_same (getFilteredTodos st).
Proof.
  unfold getFilteredTodos. rewrite stages_filter.
  split; [apply sort_newest_first_perm|].
  split; [intros t; apply passesb_spec|].
  split; [|apply sort_newest_first_sorted].
  intros t. rewrite <- passesb_spec, <- List.filter_In. split.
  - apply Permutation_in, sort_newest_first_perm.
  - apply Permutation_in. symmetry. apply sort_newest_first_perm.
Qed.

(** With the tag list set to the empty list the code keeps every todo,
    although no todo shares a tag with the empty set. *)
Lemma C2_stated_fails_on_empty_tag_list :
  ~ (forall t, In t (getFilteredTodos Sample.st_no_tags) <->
               In t (todos Sample.st_no_tags) /\
               FilterSpec.passes_stated (filter Sample.st_no_tags) t).
Proof.
  intros Hall.
  destruct (Hall Sample.t1) as [Hin _].
  destruct Hin as (_ & _ & _ & Htags & _); [simpl; left; reflexivity|].
  destruct Htags as [tag [[] _]].
Qed.

(** ** C8: the adapter's insert, upsert and delete *)

Import IndexedDB.

Lemma string_compare_refl (s : string) : String.compare s s = Eq.
Proof.
  pose proof (String.compare_antisym s s) as H.
  destruct (String.compare s s); simpl in H; congruence.
Qed.

Lemma key_compare_refl : forall k, key_compare k k = Eq.
Proof.
  fix IH 1. intros [n|t|s|l]; simpl.
  - apply Z.compare_refl.
  - apply Z.compare_refl.
  - apply string_compare_refl.
  - induction l as [|a l IHl]; [reflexivity|].
    rewrite (IH a). exact IHl.
Qed.

Lemma key_eqb_refl (k : Key) : key_eqb k k = true.
Proof. unfold key_eqb. rewrite key_compare_refl. reflexivity. Qed.

Lemma has_key_own (k : Key) (r : Obj) : key_of r = Some k -> has_key k r = true.
Proof. intros Hk. unfold has_key. rewrite Hk. apply key_eqb_refl. Qed.

(** After a put the record is the one found under its key. *)
Lemma store_get_put (k : Key) (r : Obj) (l : list Obj) :
  key_of r = Some k -> store_get k (store_put k r l) = Some r.
Proof.
  intros Hk. unfold store_get. induction l as [|x l IH]; simpl.
  - rewrite (has_key_own k r Hk). reflexivity.
  - destruct (key_of x) as [kx|] eqn:Ex.
    + destruct (key_compare k kx) eqn:Ec; simpl.
      * rewrite (has_key_own k r Hk). reflexivity.
      * rewrite (has_key_own k r Hk). reflexivity.
      * unfold has_key at 1. rewrite Ex. unfold key_eqb. rewrite Ec. exact IH.
    + simpl. unfold has_key at 1. rewrite Ex. exact IH.
Qed.

Lemma store_get_delete (k : Key) (l : list Obj) :
  store_get k (store_delete k l) = None.
Proof.
  unfold store_get, store_delete. induction l as [|x l IH]; simpl; [reflexivity|].
  destruct (has_key k x) eqn:E; simpl; [exact IH | rewrite E; exact IH].
Qed.

Lemma store_delete_absent (k : Key) (l : list Obj) :
  store_get k l = None -> store_delete k l = l.
Proof.
  unfold store_get, store_delete. induction l as [|x l IH]; simpl; [reflexivity|].
  destruct (has_key k x) eqn:E; simpl; [discriminate|].
  intros H. rewrite (IH H). reflexivity.
Qed.

Lemma request_ok (s : State) :
  next_ok s -> exists s', request s = (Ok tt, s') /\ records s' = records s.
Proof.
  unfold next_ok, request. destruct s as [rs [|[] fs]]; simpl; intros Hn;
    try discriminate; eexists; split; reflexivity.
Qed.

Lemma request_eq (s : State) :
  request s = (if hd false (faults s) then Throw else Ok tt,
               mkDB (records s) (tl (faults s))).
Proof. unfold request. destruct s as [rs [|[] fs]]; reflexivity. Qed.

Lemma request_records (s : State) : records (snd (request s)) = records s.
Proof. unfold request. destruct s as [rs [|[] fs]]; reflexivity. Qed.

Section AdapterFacts.
Context `{Host}.

Lemma addTodo_taken (todo existing : Obj) (k : Key) (s : State) :
  key_of todo = Some k -> store_get k (records s) = Some existing ->
  outcome (addTodo todo s) = Throw /\ records (after (addTodo todo s)) = records s.
Proof.
  intros Hk Hget. unfold addTodo, bind, outcome, after.
  pose proof (request_records s) as Hr.
  destruct (request s) as [[[]|] s1]; simpl in *; [|split; [reflexivity | exact Hr]].
  rewrite Hk. unfold read_records. rewrite Hr, Hget. unfold throw. simpl.
  split; [reflexivity | exact Hr].
Qed.

Lemma addTodo_fresh (todo : Obj) (k : Key) (s : State) :
  key_of todo = Some k -> store_get k (records s) = None -> next_ok s ->
  outcome (addTodo todo s) = Ok tt /\
  records (after (addTodo todo s)) = store_put k todo (records s).
Proof.
  intros Hk Hget Hn. unfold addTodo, bind, outcome, after.
  destruct (request_ok s Hn) as [s1 [-> Hr]].
  rewrite Hk. unfold read_records. rewrite Hr, Hget. simpl. split; reflexivity.
Qed.

Lemma updateTodo_ok (todo : Obj) (k : Key) (s : State) :
  key_of todo = Some k -> next_ok s ->
  outcome (updateTodo todo s) = Ok tt /\
  records (after (updateTodo todo s)) = store_put k todo (records s).
Proof.
  intros Hk Hn. unfold updateTodo, bind, outcome, after.
  destruct (request_ok s Hn) as [s1 [-> Hr]].
  rewrite Hk. unfold read_records. simpl. rewrite Hr. split; reflexivity.
Qed.

Lemma deleteTodo_ok (i : Val) (k : Key) (s : State) :
  valid_key i = Some k -> next_ok s ->
  outcome (deleteTodo i s) = Ok tt /\
  records (after (deleteTodo i s)) = store_delete k (records s).
Proof.
  intros Hk Hn. unfold deleteTodo, bind, outcome, after.
  destruct (request_ok s Hn) as [s1 [-> Hr]].
  rewrite Hk. unfold read_records. simpl. rewrite Hr. split; reflexivity.
Qed.

(** C8. [addTodo] rejects a record whose id is already stored and leaves
    the store as it was; [updateTodo] resolves also when nothing is
    stored under the id, and the record is stored afterwards;
    [deleteTodo] resolves without effect when the id is absent, so a
    second delete of the same id resolves. *)
Theorem C8_insert_upsert_delete (todo : Obj) (k : Key) (s : State) :
  key_of todo = Some k ->
  (forall existing, store_get k (records s) = Some existing ->
     outcome (addTodo todo s) = Throw /\
     records (after (addTodo todo s)) = records s) /\
  (store_get k (records s) = None -> next_ok s ->
     outcome (updateTodo todo s) = Ok tt /\
     store_get k (records (after (updateTodo todo s))) = Some todo) /\
  (forall i : string, store_get (KStr i) (records s) = None -> next_ok s ->
     outcome (deleteTodo (VStr i) s) = Ok tt /\
     records (after (deleteTodo (VStr i) s)) = records s) /\
  (forall i : string,
     let s1 := after (deleteTodo (VStr i) s) in
     next_ok s -> next_ok s1 ->
     outcome (deleteTodo (VStr i) s) = Ok tt /\
     outcome (deleteTodo (VStr i) s1) = Ok tt /\
     records (after (deleteTodo (VStr i) s1)) = records s1).
Proof.
  intros Hk. split; [|split; [|split]].
  - intros existing Hget. eapply addTodo_taken; eassumption.
  - intros Hget Hn. destruct (updateTodo_ok todo k s Hk Hn) as [Ho Hr].
    split; [exact Ho|]. rewrite Hr. apply store_get_put. exact Hk.
  - intros i Hget Hn.
    destruct (deleteTodo_ok (VStr i) (KStr i) s eq_refl Hn) as [Ho Hr].
    split; [exact Ho|]. rewrite Hr. apply store_delete_absent. exact Hget.
  - intros i s1 Hn Hn1.
    destruct (deleteTodo_ok (VStr i) (KStr i) s eq_refl Hn) as [Ho Hr].
    destruct (deleteTodo_ok (VStr i) (KStr i) s1 eq_refl Hn1) as [Ho1 Hr1].
    split; [exact Ho|]. split; [exact Ho1|].
    rewrite Hr1. apply store_delete_absent. subst s1. rewrite Hr.
    apply store_get_delete.
Qed.

End AdapterFacts.

(** Insert, upsert and delete on the sample store. *)
Lemma C8_insert_upsert_delete_witness :
  outcome (addTodo Sample.rec2 Sample.db0) = Throw /\
  outcome (updateTodo (<["id" := VStr "9"]> Sample.rec2) Sample.db0) = Ok tt /\
  outcome (deleteTodo (VStr "9") (after (deleteTodo (VStr "9") Sample.db0))) = Ok tt.
Proof.
  destruct (C8_insert_upsert_delete Sample.rec2 (KStr "2") Sample.db0)
    as (Hadd & _); [vm_compute; reflexivity|].
  destruct (C8_insert_upsert_delete (<["id" := VStr "9"]> Sample.rec2) (KStr "9")
              Sample.db0) as (_ & Hput & _ & Hdel); [vm_compute; reflexivity|].
  split; [|split].
  - apply (Hadd Sample.rec2). vm_compute. reflexivity.
  - apply Hput; vm_compute; reflexivity.
  - apply (Hdel "9"%string); vm_compute; reflexivity.
Defined.

(** ** C9: bulk delete *)

Lemma request_faults (s : State) :
  faults (snd (request s)) = tl (faults s).
Proof. unfold request. destruct s as [rs [|[] fs]]; reflexivity. Qed.

Lemma request_outcome (s : State) :
  fst (request s) = if hd false (faults s) then Throw else Ok tt.
Proof. unfold request. destruct s as [rs [|[] fs]]; reflexivity. Qed.




(** The scenario of the specification: deleting "2" throws, "1" and "3"
    are reported and removed. *)
Example bulk_delete_scenario :
  let r := Routes.DELETE_bulk (VArr [VStr "1"; VStr "2"; VStr "3"]) Sample.db_second_fails in
  outcome r = Ok (Routes.mkResponse
                    (Routes.Deleted [VStr "1"; VStr "3"] 2) 200%nat) /\
  records (after r) = [Sample.rec2].
Proof. vm_compute. split; reflexivity. Qed.


(** ** Runs of the adapter and of the single-resource handlers *)

Section RunFacts.
Context `{Host}.

Lemma getAllTodos_run (s : State) :
  getAllTodos s
  = (if hd false (faults s) then Throw else Ok (List.map revive (records s)),
     mkDB (records s) (tl (faults s))).
Proof.
  unfold getAllTodos. unfold bind, read_records, ret. rewrite request_eq.
  destruct (hd false (faults s)); reflexivity.
Qed.

Lemma updateTodo_run (todo : Obj) (s : State) :
  updateTodo todo s
  = match hd false (faults s), key_of todo with
    | false, Some k => (Ok tt, mkDB (store_put k todo (records s)) (tl (faults s)))
    | _, _ => (Throw, mkDB (records s) (tl (faults s)))
    end.
Proof.
  unfold updateTodo. unfold bind, read_records, write_records, throw.
  rewrite request_eq.
  destruct (hd false (faults s)); destruct (key_of todo); reflexivity.
Qed.

Lemma addTodo_run (todo : Obj) (s : State) :
  addTodo todo s
  = match hd false (faults s), key_of todo with
    | false, Some k =>
        match store_get k (records s) with
        | Some _ => (Throw, mkDB (records s) (tl (faults s)))
        | None => (Ok tt, mkDB (store_put k todo (records s)) (tl (faults s)))
        end
    | _, _ => (Throw, mkDB (records s) (tl (faults s)))
    end.
Proof.
  unfold addTodo. unfold bind, read_records, write_records, throw.
  rewrite request_eq.
  destruct (hd false (faults s)); destruct (key_of todo) as [k|]; try reflexivity.
  simpl. destruct (store_get k (records s)); reflexivity.
Qed.

Lemma deleteTodo_run (i : Val) (s : State) :
  deleteTodo i s
  = match hd false (faults s), valid_key i with
    | false, Some k => (Ok tt, mkDB (store_delete k (records s)) (tl (faults s)))
    | _, _ => (Throw, mkDB (records s) (tl (faults s)))
    end.
Proof.
  unfold deleteTodo. unfold bind, read_records, write_records, throw.
  rewrite request_eq.
  destruct (hd false (faults s)); destruct (valid_key i); reflexivity.
Qed.

Lemma get_insert_eq (o : Obj) (k : string) (v : Val) : JS.get (<[k := v]> o) k = v.
Proof. unfold JS.get. rewrite lookup_insert_eq. reflexivity. Qed.

Lemma get_insert_ne (o : Obj) (k k' : string) (v : Val) :
  k <> k' -> JS.get (<[k := v]> o) k' = JS.get o k'.
Proof. intros Hne. unfold JS.get. rewrite lookup_insert_ne by exact Hne. reflexivity. Qed.

(** Reading a record back touches only its three date fields. *)
Lemma get_revive_other (r : Obj) (k : string) :
  k <> "dueDate"%string -> k <> "updatedAt"%string -> k <> "createdAt"%string ->
  JS.get (revive r) k = JS.get r k.
Proof.
  intros H1 H2 H3. unfold revive.
  rewrite !get_insert_ne by congruence. reflexivity.
Qed.

Lemma string_eqb_compare (a b : string) :
  String.eqb a b = match String.compare b a with Eq => true | _ => false end.
Proof.
  destruct (String.eqb a b) eqn:E.
  - apply String.eqb_eq in E. subst b. rewrite string_compare_refl. reflexivity.
  - destruct (String.compare b a) eqn:Ec; try reflexivity.
    apply String.compare_eq_iff in Ec. subst b.
    rewrite String.eqb_refl in E. discriminate.
Qed.

Lemma valid_key_arr (l : list Val) :
  valid_key (VArr l) = None \/ exists ks, valid_key (VArr l) = Some (KArr ks).
Proof.
  simpl. match goal with |- context [option_map KArr ?x] => destruct x end;
    simpl; eauto.
Qed.

(** The handlers look a todo up by [t.id === id]; for a string id this
    finds the record the store keeps under that key. *)
Lemma strict_eq_has_key (r : Obj) (i : string) :
  JS.strict_eq (JS.get r "id") (VStr i) = has_key (KStr i) r.
Proof.
  unfold has_key, key_of.
  destruct (JS.get r "id") as [| |b|n|s|[t|]|l|o]; try reflexivity.
  - simpl. unfold key_eqb. simpl. apply string_eqb_compare.
  - destruct (valid_key_arr l) as [->|[ks ->]]; reflexivity.
Qed.

Lemma find_by_id_revive (i : string) (l : list Obj) :
  Routes.find_by_id (VStr i) (List.map revive l)
  = option_map revive (store_get (KStr i) l).
Proof.
  unfold Routes.find_by_id, store_get.
  induction l as [|r l IH]; simpl; [reflexivity|].
  rewrite get_revive_other by discriminate.
  rewrite strict_eq_has_key.
  destruct (has_key (KStr i) r); [reflexivity | exact IH].
Qed.

End RunFacts.

Lemma string_compare_eq (a b : string) : String.compare a b = Eq -> a = b.
Proof. apply String.compare_eq_iff. Qed.

(** Keys that compare equal are the same key. *)
Lemma key_compare_eq : forall a b, key_compare a b = Eq -> a = b.
Proof.
  fix IH 1. intros [x|x|x|l] [y|y|y|m]; simpl; try discriminate.
  - intros E. apply Z.compare_eq in E. congruence.
  - intros E. apply Z.compare_eq in E. congruence.
  - intros E. apply string_compare_eq in E. congruence.
  - intros E. f_equal. revert m E.
    induction l as [|a l IHl]; intros [|b m] E; try discriminate; [reflexivity|].
    destruct (key_compare a b) eqn:Eab; try discriminate.
    apply IH in Eab. subst b. f_equal. apply IHl. exact E.
Qed.

Lemma key_eqb_eq (a b : Key) : key_eqb a b = true -> a = b.
Proof.
  unfold key_eqb. destruct (key_compare a b) eqn:E; try discriminate.
  intros _. apply key_compare_eq. exact E.
Qed.

(** A put under another key leaves the record under [k] alone. *)
Lemma store_get_put_ne (k k' : Key) (u : Obj) (l : list Obj) :
  key_of u = Some k' -> key_eqb k k' = false ->
  store_get k (store_put k' u l) = store_get k l.
Proof.
  intros Hu Hne. unfold store_get.
  assert (Hku : has_key k u = false) by (unfold has_key; rewrite Hu; exact Hne).
  induction l as [|x l IH]; simpl.
  - rewrite Hku. reflexivity.
  - destruct (key_of x) as [kx|] eqn:Ex.
    + destruct (key_compare k' kx) eqn:Ec; simpl.
      * rewrite Hku. apply key_compare_eq in Ec. subst kx.
        unfold has_key at 2. rewrite Ex, Hne. reflexivity.
      * rewrite Hku. reflexivity.
      * rewrite IH. reflexivity.
    + simpl. rewrite IH. reflexivity.
Qed.

Section HandlerFacts.
Context `{Host}.

Lemma bind_run {A B} (m : M A) (k : A -> M B) (s : State) :
  bind m k s
  = match m s with (Ok a, s') => k a s' | (Throw, s') => (Throw, s') end.
Proof. reflexivity. Qed.

Lemma bind_lift {A B} (o : option A) (k : A -> M B) (s : State) :
  bind (Routes.lift o) k s = match o with Some a => k a s | None => (Throw, s) end.
Proof. destruct o; reflexivity. Qed.


Lemma get_merge_existing (now : Z) (e upd : Obj) (f : string) :
  f <> "updatedAt"%string -> upd !! f = None ->
  JS.get (Routes.merge_update now e upd) f = JS.get e f.
Proof.
  intros Hf Hu. unfold Routes.merge_update.
  rewrite get_insert_ne by congruence.
  unfold JS.get. rewrite lookup_union_r by exact Hu. reflexivity.
Qed.

Lemma get_merge_patch (now : Z) (e upd : Obj) (f : string) (v : Val) :
  f <> "updatedAt"%string -> upd !! f = Some v ->
  JS.get (Routes.merge_update now e upd) f = v.
Proof.
  intros Hf Hu. unfold Routes.merge_update.
  rewrite get_insert_ne by congruence.
  unfold JS.get. rewrite (lookup_union_Some_l _ _ _ _ Hu). reflexivity.
Qed.

(** An undefined field of the prepared patch is gone after the clean-up. *)
Lemma drop_undefined_gone (m : Obj) (f : string) :
  JS.get m f = VUndefined -> Routes.drop_undefined m !! f = None.
Proof.
  intros Hf. unfold Routes.drop_undefined. apply map_lookup_filter_None.
  unfold JS.get in Hf. destruct (m !! f) as [v|] eqn:E; [right | left; reflexivity].
  intros x [= <-]. simpl in Hf. subst v. simpl. discriminate.
Qed.

Lemma drop_undefined_stays (m : Obj) (f : string) (v : Val) :
  m !! f = Some v -> JS.is_undefined v = false ->
  Routes.drop_undefined m !! f = Some v.
Proof.
  intros Hm Hv. unfold Routes.drop_undefined. apply map_lookup_filter_Some.
  split; [exact Hm | exact Hv].
Qed.

(** The ways a single-resource [PUT] can end: an answer other than 200
    with the store untouched, or the merged record written and returned. *)
Lemma PUT_cases (i : string) (clock : nat -> Z) (body : Obj) (s : State) :
  (exists resp s',
      Routes.PUT i clock body s = (Ok resp, s') /\
      (forall u, Routes.payload resp <> Routes.TodoBody u) /\
      Api.ok resp = false /\ records s' = records s)
  \/
  (exists raw title' description' k s',
      store_get (KStr i) (records s) = Some raw /\
      JS.opt_trim (JS.get body "title") = Some title' /\
      JS.opt_trim (JS.get body "description") = Some description' /\
      let u := Routes.merge_update (clock 0%nat) (revive raw)
                 (Routes.drop_undefined
                    (Routes.prepare_updates body title' description')) in
      key_of u = Some k /\
      Routes.PUT i clock body s = (Ok (Routes.json (Routes.TodoBody u)), s') /\
      records s' = store_put k u (records s)).
Proof.
  remember (Routes.PUT i clock body s) as r eqn:Er.
  unfold Routes.PUT, try_catch in Er.
  assert (Hleft : forall msg st s',
            Api.ok (Routes.mkResponse (Routes.Error msg) st) = false ->
            records s' = records s ->
            r = (Ok (Routes.mkResponse (Routes.Error msg) st), s') ->
            exists resp s'', r = (Ok resp, s'') /\
              (forall u, Routes.payload resp <> Routes.TodoBody u) /\
              Api.ok resp = false /\ records s'' = records s).
  { intros msg st s' Hst Hrec ->. do 2 eexists. split; [reflexivity|].
    split; [discriminate|]. split; assumption. }
  destruct (negb (JS.is_undefined (JS.get body "title")) && _).
  { left. eapply Hleft; [| |exact Er]; reflexivity. }
  rewrite bind_lift in Er.
  destruct (JS.opt_trim (JS.get body "title")) as [title'|].
  2:{ left. eapply Hleft; [| |exact Er]; reflexivity. }
  rewrite bind_lift in Er.
  destruct (JS.opt_trim (JS.get body "description")) as [description'|].
  2:{ left. eapply Hleft; [| |exact Er]; reflexivity. }
  rewrite bind_run, getAllTodos_run in Er.
  destruct (hd false (faults s)).
  { left. eapply Hleft; [| |exact Er]; reflexivity. }
  rewrite find_by_id_revive in Er.
  destruct (store_get (KStr i) (records s)) as [raw|] eqn:Eraw; cbn [option_map] in Er.
  2:{ left. eapply Hleft; [| |exact Er]; reflexivity. }
  rewrite bind_run, updateTodo_run in Er. cbn [records faults] in Er.
  destruct (hd false (tl (faults s))).
  { left. eapply Hleft; [| |exact Er]; reflexivity. }
  match type of Er with context [key_of ?u] => destruct (key_of u) as [k|] eqn:Ek end.
  2:{ left. eapply Hleft; [| |exact Er]; reflexivity. }
  right. clear Hleft. subst r. exists raw, title', description', k. eexists.
  split; [reflexivity|]. split; [reflexivity|]. split; [reflexivity|].
  split; [exact Ek|]. split; reflexivity.
Qed.


End HandlerFacts.

(** ** C10 and C7: what a single-resource update keeps *)

Section UpdateFacts.
Context `{Host}.

Lemma newDate_idem (v : Val) : JS.newDate (JS.newDate v) = JS.newDate v.
Proof. destruct v; reflexivity. Qed.

Lemma newDate_truthy (v : Val) : JS.truthy (JS.newDate v) = true.
Proof. destruct v; reflexivity. Qed.

Lemma get_revive_dueDate (r : Obj) :
  JS.get (revive r) "dueDate"
  = if JS.truthy (JS.get r "dueDate") then JS.newDate (JS.get r "dueDate")
    else VUndefined.
Proof. unfold revive. apply get_insert_eq. Qed.

Lemma get_revive_createdAt (r : Obj) :
  JS.get (revive r) "createdAt" = JS.newDate (JS.get r "createdAt").
Proof.
  unfold revive. rewrite !get_insert_ne by discriminate. apply get_insert_eq.
Qed.

(** Reading back a record that was itself read back changes nothing. *)
Lemma revive_stable (u e : Obj) (f : string) :
  f <> "updatedAt"%string ->
  JS.get u f = JS.get (revive e) f ->
  JS.get (revive u) f = JS.get (revive e) f.
Proof.
  intros Hf Hu.
  destruct (String.eqb f "dueDate") eqn:Ed.
  { apply String.eqb_eq in Ed. subst f.
    rewrite (get_revive_dueDate u), Hu, get_revive_dueDate.
    destruct (JS.truthy (JS.get e "dueDate")); [|reflexivity].
    rewrite newDate_truthy, newDate_idem. reflexivity. }
  destruct (String.eqb f "createdAt") eqn:Ec.
  { apply String.eqb_eq in Ec. subst f.
    rewrite (get_revive_createdAt u), Hu, get_revive_createdAt.
    apply newDate_idem. }
  apply String.eqb_neq in Ed, Ec.
  rewrite (get_revive_other u) by assumption. exact Hu.
Qed.

Lemma ok_todo_inj (u u' : Obj) (st : nat) :
  Ok (Routes.json (Routes.TodoBody u)) = Ok (Routes.mkResponse (Routes.TodoBody u') st) ->
  u' = u.
Proof. unfold Routes.json. intros E. injection E as E _. symmetry. exact E. Qed.

Lemma kept_no_write (f : string) (raw : Obj) (i : string)
      (r : Outcome Routes.Response * State) (s : State) (resp : Routes.Response) :
  store_get (KStr i) (records s) = Some raw ->
  outcome r = Ok resp -> (forall u, Routes.payload resp <> Routes.TodoBody u) ->
  records (after r) = records s ->
  RouteSpec.field_kept f (revive raw) i r.
Proof.
  intros Hraw Ho Hp Hrec. split.
  - intros u st Hu. rewrite Ho in Hu. injection Hu as ->. destruct (Hp u). reflexivity.
  - intros raw' Hget. rewrite Hrec, Hraw in Hget. injection Hget as <-. reflexivity.
Qed.

Lemma kept_after_write (f : string) (raw u : Obj) (i : string) (k : Key)
      (r : Outcome Routes.Response * State) (s : State) :
  f <> "updatedAt"%string ->
  store_get (KStr i) (records s) = Some raw ->
  key_of u = Some k ->
  JS.get u f = JS.get (revive raw) f ->
  outcome r = Ok (Routes.json (Routes.TodoBody u)) ->
  records (after r) = store_put k u (records s) ->
  RouteSpec.field_kept f (revive raw) i r.
Proof.
  intros Hf Hraw Hk Hu Ho Hrec. split.
  - intros u' st Hu'. rewrite Ho in Hu'. apply ok_todo_inj in Hu'. subst u'. exact Hu.
  - intros raw' Hget. rewrite Hrec in Hget.
    destruct (key_eqb (KStr i) k) eqn:E.
    + apply key_eqb_eq in E. subst k.
      rewrite (store_get_put _ _ _ Hk) in Hget. injection Hget as <-.
      apply revive_stable; assumption.
    + rewrite (store_get_put_ne _ _ _ _ Hk E), Hraw in Hget.
      injection Hget as <-. reflexivity.
Qed.

(** A field the prepared patch leaves undefined is kept by [PUT]. *)
Lemma PUT_keeps (f : string) (i : string) (clock : nat -> Z) (body raw : Obj) (s : State) :
  f <> "updatedAt"%string ->
  store_get (KStr i) (records s) = Some raw ->
  (forall title' description',
     JS.opt_trim (JS.get body "title") = Some title' ->
     JS.opt_trim (JS.get body "description") = Some description' ->
     JS.get (Routes.prepare_updates body title' description') f = VUndefined) ->
  RouteSpec.field_kept f (revive raw) i (Routes.PUT i clock body s).
Proof.
  intros Hf Hraw Hundef.
  destruct (PUT_cases i clock body s)
    as [(resp & s' & Hrun & Hp & _ & Hrec)
       |(raw0 & t' & d' & k & s' & Hraw0 & Ht & Hd & Hk & Hrun & Hrec)].
  - eapply kept_no_write; [exact Hraw | rewrite Hrun; reflexivity | exact Hp |].
    rewrite Hrun. exact Hrec.
  - rewrite Hraw in Hraw0. injection Hraw0 as <-.
    eapply kept_after_write; [exact Hf | exact Hraw | exact Hk | |
                              rewrite Hrun; reflexivity | rewrite Hrun; exact Hrec].
    apply get_merge_existing; [exact Hf|].
    apply drop_undefined_gone. apply Hundef; assumption.
Qed.

(** C10. In [PUT /api/todos/[id]] on an existing todo every undefined
    field of the prepared patch is removed before the merge; so the due
    date stays when the body's [dueDate] is absent, null or otherwise
    falsy, the tags stay when [body.tags] is not an array, and the
    description stays when the body has none. *)
Theorem C10_put_cannot_clear_optional_fields
        (i : string) (clock : nat -> Z) (body raw : Obj) (s : State) :
  store_get (KStr i) (records s) = Some raw ->
  let r := Routes.PUT i clock body s in
  (forall title' description' f,
     JS.get (Routes.prepare_updates body title' description') f = VUndefined ->
     Routes.drop_undefined (Routes.prepare_updates body title' description') !! f = None) /\
  (JS.truthy (JS.get body "dueDate") = false ->
     RouteSpec.field_kept "dueDate" (revive raw) i r) /\
  (Routes.is_array (JS.get body "tags") = false ->
     RouteSpec.field_kept "tags" (revive raw) i r) /\
  (body !! "description" = None ->
     RouteSpec.field_kept "description" (revive raw) i r).
Proof.
  intros Hraw r. subst r. split; [|split; [|split]].
  - intros t' d' f Hf. apply drop_undefined_gone. exact Hf.
  - intros Hdue. apply PUT_keeps; [discriminate | exact Hraw |].
    intros t' d' _ _. unfold Routes.prepare_updates.
    rewrite get_insert_ne by discriminate. rewrite get_insert_eq, Hdue. reflexivity.
  - intros Htags. apply PUT_keeps; [discriminate | exact Hraw |].
    intros t' d' _ _. unfold Routes.prepare_updates. rewrite get_insert_eq.
    destruct (JS.get body "tags"); try reflexivity. discriminate Htags.
  - intros Hdesc. apply PUT_keeps; [discriminate | exact Hraw |].
    intros t' d' _ Hd. unfold Routes.prepare_updates.
    rewrite !get_insert_ne by discriminate. rewrite get_insert_eq.
    unfold JS.get in Hd. rewrite Hdesc in Hd. simpl in Hd. congruence.
Qed.


End UpdateFacts.

(** A [PUT] that sends a new title and a null due date to the sample
    todo "2" keeps its due date, tags and description. *)
Lemma C10_put_cannot_clear_witness :
  @RouteSpec.field_kept Sample.host0 "dueDate" (@revive Sample.host0 Sample.rec2) "2"
     (@Routes.PUT Sample.host0 "2" (fun _ => 99) Sample.body_due_null Sample.db0) /\
  @RouteSpec.field_kept Sample.host0 "tags" (@revive Sample.host0 Sample.rec2) "2"
     (@Routes.PUT Sample.host0 "2" (fun _ => 99) Sample.body_due_null Sample.db0) /\
  @RouteSpec.field_kept Sample.host0 "description" (@revive Sample.host0 Sample.rec2) "2"
     (@Routes.PUT Sample.host0 "2" (fun _ => 99) Sample.body_due_null Sample.db0).
Proof.
  destruct (@C10_put_cannot_clear_optional_fields Sample.host0 "2" (fun _ => 99)
              Sample.body_due_null Sample.rec2 Sample.db0) as (_ & Hdue & Htags & Hdesc).
  - vm_compute. reflexivity.
  - split; [apply Hdue; vm_compute; reflexivity|].
    split; [apply Htags; vm_compute; reflexivity|].
    apply Hdesc. vm_compute. reflexivity.
Defined.



(** ** C4 and C5: creation *)



(** The tags callback keeps the strings that are not blank. *)
Lemma keeps_tag_spec (v : Val) :
  JS.keeps_tag v = true <-> RouteSpec.proper_tag v.
Proof.
  unfold RouteSpec.proper_tag. destruct v as [| |b|n|s|t|l|o]; simpl;
    try (split; [discriminate | intros [s' [[=] _]]]).
  rewrite negb_true_iff. split.
  - intros Hs. exists s. split; [reflexivity|]. intros E.
    rewrite E in Hs. discriminate.
  - intros [s' [[= <-] Hs]]. destruct (Str.trim s); [destruct Hs|]; reflexivity.
Qed.

Lemma filter_tags_proper (otherwise v : Val) (l : list Val) :
  JS.filter_tags otherwise v = VArr l -> otherwise = VArr [] \/ Routes.is_array v = true ->
  Forall RouteSpec.proper_tag l.
Proof.
  intros Hf Hor. destruct v; simpl in Hf;
    try (destruct Hor as [->|Hor]; [injection Hf as <-; constructor | discriminate]).
  injection Hf as <-. apply List.Forall_forall. intros x Hx.
  apply List.filter_In in Hx as [_ Hx]. apply keeps_tag_spec. exact Hx.
Qed.

Section CreateFacts.
Context `{Host}.

Lemma key_of_new_todo (newId : string) (clock : nat -> Z) (t d p due tg : Val) :
  key_of (Routes.new_todo newId clock t d p due tg) = Some (KStr newId).
Proof. unfold key_of, Routes.new_todo. rewrite get_insert_eq. reflexivity. Qed.

(** The ways [POST] can end. *)
Lemma POST_cases (newId : string) (clock : nat -> Z) (body : Obj) (s : State) :
  let r := Routes.POST newId clock body s in
  (Routes.rejects_title (JS.get body "title") = true /\
   r = (Ok (Routes.mkResponse
              (Routes.Error "Title is required and must be a non-empty string") 400%nat), s))
  \/
  (Routes.rejects_title (JS.get body "title") = false /\
   (JS.opt_trim (JS.get body "description") = None
    \/ hd false (faults s) = true
    \/ exists old, store_get (KStr newId) (records s) = Some old) /\
   exists s', r = (Ok (Routes.mkResponse (Routes.Error "Failed to create todo") 500%nat), s')
              /\ records s' = records s)
  \/
  (Routes.rejects_title (JS.get body "title") = false /\
   exists t description',
     JS.get body "title" = VStr t /\
     JS.opt_trim (JS.get body "description") = Some description' /\
     hd false (faults s) = false /\
     store_get (KStr newId) (records s) = None /\
     let todo := Routes.new_todo newId clock (VStr (Str.trim t)) description'
                   (JS.or_default (VStr "medium") (JS.get body "priority"))
                   (JS.get body "dueDate")
                   (JS.or_default (VArr []) (JS.get body "tags")) in
     r = (Ok (Routes.mkResponse (Routes.TodoBody todo) 201%nat),
          mkDB (store_put (KStr newId) todo (records s)) (tl (faults s)))).
Proof.
  intros r. subst r. unfold Routes.POST, try_catch.
  destruct (Routes.rejects_title (JS.get body "title")) eqn:Et.
  { left. split; reflexivity. }
  right.
  assert (Hstr : exists t, JS.get body "title" = VStr t).
  { unfold Routes.rejects_title in Et. destruct (JS.get body "title"); simpl in Et;
      try discriminate; try (rewrite orb_true_r in Et; discriminate). eauto. }
  destruct Hstr as [t Htitle]. rewrite Htitle. cbn [JS.trim_call Routes.lift].
  rewrite (bind_run (ret _)). cbn [ret]. rewrite bind_lift.
  destruct (JS.opt_trim (JS.get body "description")) as [description'|] eqn:Ed.
  2:{ left. split; [reflexivity|]. split; [left; reflexivity|].
      eexists. split; reflexivity. }
  rewrite bind_run, addTodo_run, key_of_new_todo.
  destruct (hd false (faults s)) eqn:Ef.
  { left. split; [reflexivity|]. split; [right; left; reflexivity|].
    eexists. split; reflexivity. }
  destruct (store_get (KStr newId) (records s)) as [old|] eqn:Eg.
  { left. split; [reflexivity|]. split; [right; right; eauto|].
    eexists. split; reflexivity. }
  right. split; [reflexivity|]. exists t, description'.
  repeat (split; [reflexivity|]). reflexivity.
Qed.

End CreateFacts.


Section CreateClaims.
Context `{Host}.


(** C5, as amended. The tags [POST] and [PUT] write are the input array
    restricted to its entries that are strings and not blank, in the
    input's order: every stored tag is a non-empty string, and nothing is
    lower-cased or de-duplicated.  The todo answered is the record stored. *)
Theorem C5_written_tags_are_the_filtered_input
        (newId i : string) (clock : nat -> Z) (body : Obj) (s : State) :
  (forall todo st,
     outcome (Routes.POST newId clock body s)
       = Ok (Routes.mkResponse (Routes.TodoBody todo) st) ->
     (exists l, JS.get todo "tags" = VArr l /\ Forall RouteSpec.proper_tag l /\
                (forall l0, JS.get body "tags" = VArr l0 ->
                            l = List.filter JS.keeps_tag l0)) /\
     store_get (KStr newId) (records (after (Routes.POST newId clock body s))) = Some todo) /\
  (forall u st l0,
     JS.get body "tags" = VArr l0 ->
     outcome (Routes.PUT i clock body s)
       = Ok (Routes.mkResponse (Routes.TodoBody u) st) ->
     JS.get u "tags" = VArr (List.filter JS.keeps_tag l0) /\
     Forall RouteSpec.proper_tag (List.filter JS.keeps_tag l0) /\
     exists k, key_of u = Some k /\
               store_get k (records (after (Routes.PUT i clock body s))) = Some u).
Proof.
  split.
  - intros todo st Hout.
    destruct (POST_cases newId clock body s)
      as [[Hrej Hrun] | [(Hrej & Hwhy & s' & Hrun & Hrec)
                        | (Hrej & t & d' & Htitle & Hd & Hf & Hg & Hrun)]];
      cbv zeta in Hrun; rewrite Hrun in Hout |- *; unfold outcome, after in *;
      cbn [fst snd] in *; try discriminate Hout.
    injection Hout as <- _. split.
    + unfold Routes.new_todo. rewrite !get_insert_ne by discriminate.
      rewrite get_insert_eq.
      destruct (JS.filter_tags (VArr [])
                  (JS.or_default (VArr []) (JS.get body "tags"))) as [| | | | | |l|] eqn:El;
        try (destruct (JS.or_default (VArr []) (JS.get body "tags")); discriminate El).
      exists l. split; [reflexivity|]. split.
      * eapply filter_tags_proper; [exact El | left; reflexivity].
      * intros l0 Hl0. rewrite Hl0 in El. simpl in El. congruence.
    + cbn [records]. apply store_get_put. apply key_of_new_todo.
  - intros u st l0 Htags Hout.
    destruct (PUT_cases i clock body s)
      as [(resp & s' & Hrun & Hp & _ & _)
         |(raw & t' & d' & k & s' & _ & _ & _ & Hk & Hrun & Hrec)];
      rewrite Hrun in Hout |- *; unfold outcome, after in *; cbn [fst snd] in *.
    + injection Hout as ->. destruct (Hp u). reflexivity.
    + apply ok_todo_inj in Hout. subst u. split; [|split].
      * apply get_merge_patch; [discriminate|].
        apply drop_undefined_stays; [|reflexivity].
        unfold Routes.prepare_updates. rewrite lookup_insert_eq, Htags. reflexivity.
      * apply List.Forall_forall. intros x Hx.
        apply List.filter_In in Hx as [_ Hx]. apply keeps_tag_spec. exact Hx.
      * exists k. split; [exact Hk|]. rewrite Hrec. apply store_get_put. exact Hk.
Qed.

End CreateClaims.

(** The creation scenarios of the specification: the title is trimmed,
    the priority defaults to "medium", and of the tags only "work" and
    "urgent" are kept. *)
Example post_scenario :
  exists todo,
    outcome (@Routes.POST Sample.host0 "n1" (fun _ => 99) Sample.body_scenario Sample.db0)
      = Ok (Routes.mkResponse (Routes.TodoBody todo) 201%nat) /\
    JS.get todo "title" = VStr "Pay rent" /\
    JS.get todo "priority" = VStr "medium" /\
    JS.get todo "tags" = VArr [VStr "work"; VStr "urgent"].
Proof. eexists. split; [vm_compute; reflexivity|]. vm_compute. repeat split. Qed.



(** Tags written by a [PUT] on the sample store. *)
Lemma C5_written_tags_witness :
  exists todo,
    outcome (@Routes.PUT Sample.host0 "1" (fun _ => 99) Sample.body_mixed_tags Sample.db0)
      = Ok (Routes.mkResponse (Routes.TodoBody todo) 200%nat) /\
    JS.get todo "tags" = VArr [VStr "Work"; VStr "Work"].
Proof.
  destruct (@C5_written_tags_are_the_filtered_input Sample.host0 "n1" "1" (fun _ => 99)
              Sample.body_mixed_tags Sample.db0) as [_ Hput].
  eexists. split; [vm_compute; reflexivity|].
  eapply (Hput _ 200%nat [VStr "Work"; VStr "Work"]); vm_compute; reflexivity.
Defined.

(** ["Work"] sent twice is stored twice, in upper case. *)
Lemma C5_post_keeps_case_and_duplicates :
  exists todo,
    store_get (KStr "n1")
      (records (after (@Routes.POST Sample.host0 "n1" (fun _ => 99)
                         Sample.body_mixed_tags Sample.db0))) = Some todo /\
    ~ RouteSpec.tags_invariant (JS.get todo "tags").
Proof.
  eexists. split; [vm_compute; reflexivity|].
  intros (l & Hl & Hnd & _). vm_compute in Hl.
  destruct l as [|a [|b [|c l]]]; simpl in Hl; try discriminate Hl.
  injection Hl as <- <-. inversion Hnd as [|x l' Hnotin _]. apply Hnotin. left.
Qed.

(** ** C6: the adapter's filter against the generic one *)

Lemma as_todo_fields (o : Obj) (t : Todo) :
  Wire.as_todo o = Some t ->
  JS.get o "completed" = VBool (completed t) /\
  JS.get o "priority" = VStr (Wire.priority_name (priority t)) /\
  JS.get o "id" = VStr (id t) /\
  JS.get o "createdAt" = VDate (Some (createdAt t)).
Proof.
  unfold Wire.as_todo. intros Ht. simplify_option_eq.
  repeat match goal with
         | H : Wire.as_bool ?v = Some _ |- _ => destruct v; simpl in H; try discriminate H;
                                              injection H as <-
         | H : Wire.as_string ?v = Some _ |- _ => destruct v; simpl in H; try discriminate H;
                                                injection H as <-
         | H : Wire.as_date ?v = Some _ |- _ =>
             destruct v as [| | | | |[?|]| |]; simpl in H; try discriminate H;
             injection H as <-
         end.
  simpl. repeat split; try reflexivity.
  match goal with
  | H : Wire.as_priority ?v = Some _ |- _ =>
      destruct v; simpl in H; try discriminate H;
      repeat match type of H with
             | context [String.eqb ?a ?b] =>
                 let E := fresh "E" in
                 destruct (String.eqb a b) eqn:E;
                 [apply String.eqb_eq in E; subst; injection H as <-; reflexivity|]
             end; discriminate H
  end.
Qed.

Lemma omap_cons {A B} (f : A -> option B) (a : A) (l : list A) :
  omap f (a :: l) = match f a with Some y => y :: omap f l | None => omap f l end.
Proof. reflexivity. Qed.

Lemma omap_filter {A B} (f : A -> option B) (P : A -> bool) (Q : B -> bool) (l : list A) :
  (forall a b, f a = Some b -> P a = Q b) ->
  omap f (List.filter P l) = List.filter Q (omap f l).
Proof.
  intros HPQ. induction l as [|a l IH]; [reflexivity|].
  cbn [List.filter]. rewrite (omap_cons f a l).
  destruct (f a) as [b|] eqn:Ef.
  - rewrite (HPQ a b Ef). cbn [List.filter]. destruct (Q b).
    + rewrite omap_cons, Ef, IH. reflexivity.
    + exact IH.
  - destruct (P a); [rewrite omap_cons, Ef|]; exact IH.
Qed.

Lemma map_filter_comm {A B} (g : A -> B) (P : A -> bool) (Q : B -> bool) (l : list A) :
  (forall a, P a = Q (g a)) ->
  List.map g (List.filter P l) = List.filter Q (List.map g l).
Proof.
  intros HPQ. induction l as [|a l IH]; simpl; [reflexivity|].
  rewrite <- HPQ. destruct (P a); simpl; rewrite IH; reflexivity.
Qed.

Lemma map_as_todo_views (l : list Obj) :
  Forall (fun o => is_Some (Wire.as_todo o)) l ->
  List.map Wire.as_todo l = List.map Some (Wire.views l).
Proof.
  unfold Wire.views. induction 1 as [|o l [t Ht] _ IH]; [reflexivity|].
  rewrite omap_cons, Ht. cbn [List.map]. rewrite IH, Ht. reflexivity.
Qed.

Lemma Forall_filter_keep {A} (P : A -> Prop) (p : A -> bool) (l : list A) :
  Forall P l -> Forall P (List.filter p l).
Proof.
  intros Hl. apply List.Forall_forall. intros x Hx.
  apply List.filter_In in Hx as [Hx _].
  rewrite List.Forall_forall in Hl. apply Hl. exact Hx.
Qed.

Lemma priority_name_eqb (p q : Priority) :
  key_eqb (KStr (Wire.priority_name p)) (KStr (Wire.priority_name q)) = Priority_eqb q p.
Proof. destruct p, q; reflexivity. Qed.

Section FilterFacts.
Context `{Host}.

Lemma getTodosByFilter_run (c : option bool) (p : option Priority) (s : State) :
  getTodosByFilter (RouteSpec.by_filter c p) s
  = (if hd false (faults s) then Throw
     else Ok (List.filter (RouteSpec.adapter_keeps c p) (List.map revive (records s))),
     mkDB (records s) (tl (faults s))).
Proof.
  unfold getTodosByFilter. unfold bind, read_records, ret. rewrite request_eq.
  destruct (hd false (faults s)); [reflexivity|]. cbn [records faults].
  f_equal. f_equal.
  assert (Hidx : List.map revive
                   match bf_priority (RouteSpec.by_filter c p) with
                   | Some (String a q) => index_priority_getAll (String a q) (records s)
                   | _ => records s
                   end
                 = List.filter (fun o =>
                     match p with
                     | Some p' =>
                         match valid_key (JS.get o "priority") with
                         | Some k => key_eqb (KStr (Wire.priority_name p')) k
                         | None => false
                         end
                     | None => true
                     end) (List.map revive (records s))).
  { destruct p as [p'|]; simpl.
    - assert (Hne : exists a q, Wire.priority_name p' = String a q)
        by (destruct p'; simpl; eauto).
      destruct Hne as (a & q & Hn). rewrite Hn, <- Hn.
      unfold index_priority_getAll. apply map_filter_comm.
      intros r. rewrite get_revive_other by discriminate. reflexivity.
    - rewrite filter_all. reflexivity. }
  rewrite Hidx. unfold RouteSpec.adapter_keeps.
  destruct c as [c'|]; simpl.
  - rewrite filter_filter. reflexivity.
  - apply List.filter_ext. intros o. rewrite andb_true_r. reflexivity.
Qed.

Lemma adapter_keeps_typed (c : option bool) (p : option Priority) (o : Obj) (t : Todo) :
  Wire.as_todo o = Some t ->
  RouteSpec.adapter_keeps c p o = FilterSpec.passesb (RouteSpec.store_filter c p) t.
Proof.
  intros Ht. destruct (as_todo_fields o t Ht) as (Hc & Hp & _).
  unfold RouteSpec.adapter_keeps, FilterSpec.passesb, RouteSpec.store_filter. simpl.
  rewrite Hc, Hp. simpl. rewrite !andb_true_r, andb_comm. f_equal.
  - destruct c as [[|]|]; simpl; try reflexivity; destruct (completed t); reflexivity.
  - destruct p as [p'|]; [apply priority_name_eqb | reflexivity].
Qed.

(** C6, as amended. On a store whose records read back as todos, the
    adapter's [getTodosByFilter] returns the very todos the generic filter
    of the store selects from [getAllTodos] for the same [completed] and
    [priority]; the adapter lists them in key order, the generic filter
    lists the same todos sorted newest first. *)
Theorem C6_adapter_filter_selects_the_same_todos
        (c : option bool) (p : option Priority) (s : State) :
  Wire.well_typed s -> next_ok s ->
  exists res all typed,
    outcome (getTodosByFilter (RouteSpec.by_filter c p) s) = Ok res /\
    outcome (getAllTodos s) = Ok all /\
    List.map Wire.as_todo res = List.map Some typed /\
    RouteSpec.generic_filter c p all = sort_newest_first typed /\
    Permutation typed (RouteSpec.generic_filter c p all).
Proof.
  intros Hwt Hok. unfold next_ok in Hok.
  rewrite getTodosByFilter_run, getAllTodos_run, Hok. unfold outcome. cbn [fst].
  exists (List.filter (RouteSpec.adapter_keeps c p) (List.map revive (records s))),
         (List.map revive (records s)),
         (Wire.views (List.filter (RouteSpec.adapter_keeps c p) (List.map revive (records s)))).
  split; [reflexivity|]. split; [reflexivity|].
  assert (Hgen : RouteSpec.generic_filter c p (List.map revive (records s))
                 = sort_newest_first
                     (Wire.views (List.filter (RouteSpec.adapter_keeps c p)
                                              (List.map revive (records s))))).
  { unfold RouteSpec.generic_filter, getFilteredTodos. cbn [todos filter].
    rewrite stages_filter. f_equal. unfold Wire.views. symmetry.
    apply omap_filter. intros o t. apply adapter_keeps_typed. }
  split; [|split].
  - apply map_as_todo_views. apply Forall_filter_keep.
    unfold Wire.well_typed in Hwt. apply List.Forall_map. exact Hwt.
  - exact Hgen.
  - rewrite Hgen. symmetry. apply sort_newest_first_perm.
Qed.

End FilterFacts.

(** On the sample store the adapter answers in key order "1", "2", "3". *)
Lemma C6_adapter_filter_witness :
  exists res,
    outcome (@getTodosByFilter Sample.host0 (RouteSpec.by_filter None None) Sample.db0)
      = Ok res /\
    List.map id (Wire.views res) = ["1"; "2"; "3"]%string /\
    List.map id (RouteSpec.generic_filter None None res) = ["3"; "2"; "1"]%string.
Proof.
  destruct (@C6_adapter_filter_selects_the_same_todos Sample.host0 None None Sample.db0)
    as (res & all & typed & Hres & Hall & Hty & Hgen & _).
  - unfold Wire.well_typed. simpl. repeat constructor; vm_compute; eauto.
  - reflexivity.
  - exists res. split; [exact Hres|].
    assert (Hr : Ok res = Ok (List.map (@revive Sample.host0) (records Sample.db0)))
      by (rewrite <- Hres; vm_compute; reflexivity).
    injection Hr as ->. split; vm_compute; reflexivity.
Defined.

(** The two answers differ in order: the adapter lists the sample todos
    oldest first (their key order), the generic filter newest first. *)
Lemma C6_orders_differ :
  exists res all,
    outcome (@getTodosByFilter Sample.host0 (RouteSpec.by_filter None None) Sample.db0)
      = Ok res /\
    outcome (@getAllTodos Sample.host0 Sample.db0) = Ok all /\
    Wire.views res <> RouteSpec.generic_filter None None all.
Proof.
  eexists. eexists. split; [vm_compute; reflexivity|].
  split; [vm_compute; reflexivity|].
  vm_compute. discriminate.
Qed.

(** ** C3: the in-memory list and the durable records *)

Lemma as_priority_name (p : Priority) : Wire.as_priority (VStr (Wire.priority_name p)) = Some p.
Proof. destruct p; reflexivity. Qed.

Lemma as_priority_inv (v : Val) (p : Priority) :
  Wire.as_priority v = Some p -> v = VStr (Wire.priority_name p).
Proof.
  destruct v; simpl; try discriminate.
  repeat match goal with
         | |- context [String.eqb ?a ?b] =>
             let E := fresh "E" in
             destruct (String.eqb a b) eqn:E;
             [apply String.eqb_eq in E; subst; intros [= <-]; reflexivity|]
         end.
  discriminate.
Qed.

Lemma mapM_as_string (l : list string) : mapM Wire.as_string (List.map VStr l) = Some l.
Proof.
  induction l as [|a l IH]; [reflexivity|].
  cbn. rewrite IH. reflexivity.
Qed.

Lemma mapM_as_string_inv (l : list Val) (r : list string) :
  mapM Wire.as_string l = Some r -> l = List.map VStr r.
Proof.
  revert r. induction l as [|v l IH]; intros r Hr.
  - cbn in Hr. injection Hr as <-. reflexivity.
  - cbn in Hr. destruct v; simpl in Hr; try discriminate Hr.
    destruct (mapM Wire.as_string l) as [r'|] eqn:E; simpl in Hr; [|discriminate Hr].
    injection Hr as <-. rewrite (IH r' eq_refl). reflexivity.
Qed.

(** Reading a record as a todo succeeds exactly on the records that
    hold the todo's values field by field. *)
Lemma as_todo_reads (o : Obj) (t : Todo) :
  Wire.as_todo o = Some t <-> Wire.reads_as o t.
Proof.
  unfold Wire.as_todo, Wire.reads_as. split.
  - intros Ht. simplify_option_eq.
    repeat match goal with
           | H : Wire.as_bool ?v = Some _ |- _ =>
               destruct v; simpl in H; try discriminate H; injection H as <-
           | H : Wire.as_string ?v = Some _ |- _ =>
               destruct v; simpl in H; try discriminate H; injection H as <-
           | H : Wire.as_date ?v = Some _ |- _ =>
               destruct v as [| | | | |[?|]| |]; simpl in H; try discriminate H;
               injection H as <-
           | H : Wire.as_priority ?v = Some _ |- _ => apply as_priority_inv in H; rewrite H
           | H : Wire.as_tags ?v = Some _ |- _ =>
               destruct v; simpl in H; try discriminate H;
               apply mapM_as_string_inv in H; rewrite H
           | H : Wire.as_optional _ ?v = Some _ |- _ =>
               destruct v as [| | | | |[?|]| |]; simpl in H; try discriminate H;
               injection H as <-
           end; simpl; repeat split; reflexivity.
  - intros (Hi & Ht & Hd & Hc & Hp & Hdue & Htg & Hca & Hua).
    rewrite Hi, Ht, Hd, Hc, Hp, Hdue, Htg, Hca, Hua.
    assert (Hdesc : Wire.as_optional Wire.as_string (Wire.opt_val VStr (description t))
                    = Some (description t)) by (destruct (description t); reflexivity).
    assert (Hdd : Wire.as_optional Wire.as_date
                    (Wire.opt_val (fun z => VDate (Some z)) (dueDate t))
                  = Some (dueDate t)) by (destruct (dueDate t); reflexivity).
    rewrite as_priority_name, Hdesc, Hdd. unfold Wire.as_tags.
    rewrite mapM_as_string.
    destruct t; reflexivity.
Qed.

Section WireFacts.
Context `{Host} `{!Api.HostLaws}.

Lemma newDate_json_date (t : Z) : JS.newDate (Api.json_date t) = VDate (Some t).
Proof. unfold Api.json_date. simpl. rewrite Api.iso_round_trip. reflexivity. Qed.

Lemma truthy_json_date (t : Z) : JS.truthy (Api.json_date t) = true.
Proof.
  unfold Api.json_date. simpl. pose proof (Api.iso_not_empty t) as Hne.
  destruct (toISOString t); [destruct Hne; reflexivity | reflexivity].
Qed.

Lemma get_to_json (o : Obj) (f : string) :
  JS.get (Api.to_json o) f
  = if JS.is_undefined (JS.get o f) then VUndefined else Api.to_json_val (JS.get o f).
Proof.
  unfold Api.to_json. unfold JS.get at 1. rewrite lookup_fmap.
  destruct (JS.is_undefined (JS.get o f)) eqn:Eu.
  - rewrite drop_undefined_gone; [reflexivity|].
    destruct (JS.get o f); simpl in Eu; try discriminate Eu. reflexivity.
  - unfold JS.get in Eu |- *. destruct (o !! f) as [v|] eqn:E; [|discriminate Eu].
    rewrite (drop_undefined_stays o f v E Eu). reflexivity.
Qed.

Lemma to_json_strings (l : list string) :
  Api.to_json_val (VArr (List.map VStr l)) = VArr (List.map VStr l).
Proof.
  simpl. f_equal. induction l as [|a l IH]; [reflexivity|].
  simpl. rewrite IH. reflexivity.
Qed.

Lemma get_revive_updatedAt (r : Obj) :
  JS.get (revive r) "updatedAt" = JS.newDate (JS.get r "updatedAt").
Proof.
  unfold revive. rewrite get_insert_ne by discriminate. apply get_insert_eq.
Qed.

Lemma get_parse_other (r : Obj) (k : string) :
  k <> "dueDate"%string -> k <> "updatedAt"%string -> k <> "createdAt"%string ->
  JS.get (Api.parse_dates r) k = JS.get r k.
Proof.
  intros H1 H2 H3. unfold Api.parse_dates.
  rewrite !get_insert_ne by congruence. reflexivity.
Qed.

Lemma get_parse_dueDate (r : Obj) :
  JS.get (Api.parse_dates r) "dueDate"
  = if JS.truthy (JS.get r "dueDate") then JS.newDate (JS.get r "dueDate")
    else VUndefined.
Proof. unfold Api.parse_dates. apply get_insert_eq. Qed.

Lemma get_parse_createdAt (r : Obj) :
  JS.get (Api.parse_dates r) "createdAt" = JS.newDate (JS.get r "createdAt").
Proof.
  unfold Api.parse_dates. rewrite !get_insert_ne by discriminate. apply get_insert_eq.
Qed.

Lemma get_parse_updatedAt (r : Obj) :
  JS.get (Api.parse_dates r) "updatedAt" = JS.newDate (JS.get r "updatedAt").
Proof.
  unfold Api.parse_dates. rewrite get_insert_ne by discriminate. apply get_insert_eq.
Qed.

(** A date value survives the wire: the client's date is the one the
    adapter reads back. *)
Lemma wire_date (v : Val) (z : Z) :
  Wire.scalar v -> JS.newDate v = VDate (Some z) ->
  JS.newDate (if JS.is_undefined v then VUndefined else Api.to_json_val v)
  = VDate (Some z).
Proof.
  intros Hs Hv. destruct v as [| |b|n|s|[t|]|l|o]; simpl in *;
    try exact Hv; try discriminate Hv; try contradiction.
  injection Hv as <-. apply newDate_json_date.
Qed.

Lemma wire_due (v : Val) (d : option Z) :
  Wire.scalar v ->
  (if JS.truthy v then JS.newDate v else VUndefined)
    = Wire.opt_val (fun z => VDate (Some z)) d ->
  (let w := if JS.is_undefined v then VUndefined else Api.to_json_val v in
   if JS.truthy w then JS.newDate w else VUndefined)
  = Wire.opt_val (fun z => VDate (Some z)) d.
Proof.
  intros Hs Hv. destruct v as [| |b|n|s|[t|]|l|o]; try contradiction;
    cbn [JS.is_undefined Api.to_json_val]; cbv zeta; try exact Hv.
  - rewrite truthy_json_date, newDate_json_date. exact Hv.
  - destruct d; discriminate Hv.
Qed.

(** What the client reads from an answered record is the todo the
    adapter reads back from it. *)
Lemma client_read_revive (u : Obj) (t : Todo) :
  Wire.as_todo (revive u) = Some t -> Wire.dates_scalar u ->
  Api.client_read u = Some t.
Proof.
  intros Ht (Sc & Su & Sd). apply as_todo_reads in Ht.
  destruct Ht as (Hi & Hti & Hd & Hc & Hp & Hdue & Htg & Hca & Hua).
  rewrite get_revive_other in Hi by discriminate.
  rewrite get_revive_other in Hti by discriminate.
  rewrite get_revive_other in Hd by discriminate.
  rewrite get_revive_other in Hc by discriminate.
  rewrite get_revive_other in Hp by discriminate.
  rewrite get_revive_other in Htg by discriminate.
  rewrite get_revive_dueDate in Hdue. rewrite get_revive_createdAt in Hca.
  rewrite get_revive_updatedAt in Hua.
  unfold Api.client_read. apply as_todo_reads.
  unfold Wire.reads_as.
  rewrite (get_parse_other _ "id"), (get_parse_other _ "title"),
    (get_parse_other _ "description"), (get_parse_other _ "completed"),
    (get_parse_other _ "priority"), (get_parse_other _ "tags") by discriminate.
  rewrite get_parse_dueDate, get_parse_createdAt, get_parse_updatedAt.
  rewrite !get_to_json. rewrite Hi, Hti, Hd, Hc, Hp, Htg.
  rewrite to_json_strings.
  repeat split; try reflexivity.
  - destruct (description t); reflexivity.
  - apply (wire_due _ _ Sd Hdue).
  - apply (wire_date _ _ Sc Hca).
  - apply (wire_date _ _ Su Hua).
Qed.

End WireFacts.

Lemma get_put_opt_eq (k : string) (v : option Val) (o : Obj) :
  JS.get (Api.put_opt k v o) k = match v with Some x => x | None => JS.get o k end.
Proof. destruct v; simpl; [apply get_insert_eq | reflexivity]. Qed.

Lemma get_put_opt_ne (k k' : string) (v : option Val) (o : Obj) :
  k <> k' -> JS.get (Api.put_opt k v o) k' = JS.get o k'.
Proof. intros Hne. destruct v; simpl; [apply get_insert_ne; exact Hne | reflexivity]. Qed.

Lemma get_empty (k : string) : JS.get ∅ k = VUndefined.
Proof. reflexivity. Qed.


Lemma filter_keeps_strings (l : list string) :
  List.filter JS.keeps_tag (List.map VStr l)
  = List.map VStr (List.filter (fun s => negb (Str.is_empty (Str.trim s))) l).
Proof.
  induction l as [|a l IH]; [reflexivity|].
  simpl. destruct (negb (Str.is_empty (Str.trim a))); simpl; rewrite IH; reflexivity.
Qed.



Section TypedFlows.
Context `{Host} `{!Api.HostLaws}.


Lemma json_of_draft_fields (d : TodoStore.Draft) :
  let body := Api.json_of_draft d in
  JS.get body "title" = VStr (d_title d) /\
  JS.get body "description" = Wire.opt_val VStr (d_description d) /\
  JS.get body "priority" = VStr (Wire.priority_name (d_priority d)) /\
  JS.get body "dueDate" = Wire.opt_val Api.json_date (d_dueDate d) /\
  JS.get body "tags" = Api.json_tags (d_tags d).
Proof.
  unfold Api.json_of_draft. cbv zeta.
  repeat split.
  - rewrite !get_put_opt_ne by discriminate. apply get_insert_eq.
  - rewrite get_put_opt_eq. destruct (d_description d); [reflexivity|].
    simpl. rewrite get_put_opt_ne by discriminate. reflexivity.
  - rewrite !get_put_opt_ne by discriminate.
    rewrite !get_insert_ne by discriminate. apply get_insert_eq.
  - rewrite get_put_opt_ne by discriminate. rewrite get_put_opt_eq.
    destruct (d_dueDate d); reflexivity.
  - rewrite !get_put_opt_ne by discriminate.
    rewrite !get_insert_ne by discriminate. apply get_insert_eq.
Qed.

End TypedFlows.

Ltac read_insert :=
  rewrite ?get_insert_ne by discriminate; rewrite get_insert_eq.

Section TypedRecords.
Context `{Host} `{!Api.HostLaws}.

Lemma due_of_json (due : option Z) :
  (if JS.truthy (Wire.opt_val Api.json_date due)
   then JS.newDate (Wire.opt_val Api.json_date due) else VUndefined)
  = Wire.opt_val (fun z => VDate (Some z)) due.
Proof.
  destruct due as [z|]; cbn [Wire.opt_val]; [|reflexivity].
  rewrite truthy_json_date, newDate_json_date. reflexivity.
Qed.

Lemma due_revived (due : option Z) :
  (if JS.truthy (Wire.opt_val (fun z => VDate (Some z)) due)
   then JS.newDate (Wire.opt_val (fun z => VDate (Some z)) due) else VUndefined)
  = Wire.opt_val (fun z => VDate (Some z)) due.
Proof. destruct due; reflexivity. Qed.

(** The record [POST] builds from a draft reads as [create_from]. *)
Lemma new_todo_typed (d : TodoStore.Draft) (newId : string) (clock : nat -> Z) (d' : Val) :
  JS.opt_trim (Wire.opt_val VStr (d_description d)) = Some d' ->
  let u := Routes.new_todo newId clock (VStr (Str.trim (d_title d))) d'
             (JS.or_default (VStr "medium") (VStr (Wire.priority_name (d_priority d))))
             (Wire.opt_val Api.json_date (d_dueDate d))
             (JS.or_default (VArr []) (Api.json_tags (d_tags d))) in
  Wire.reads_as (revive u) (Api.create_from d newId clock) /\ Wire.dates_scalar u.
Proof.
  intros Hd u. subst u. split.
  - unfold Wire.reads_as.
    rewrite (get_revive_other _ "id"), (get_revive_other _ "title"),
      (get_revive_other _ "description"), (get_revive_other _ "completed"),
      (get_revive_other _ "priority"), (get_revive_other _ "tags") by discriminate.
    rewrite get_revive_dueDate, get_revive_createdAt, get_revive_updatedAt.
    unfold Routes.new_todo, Api.create_from. cbn [id title description completed
      priority dueDate tags createdAt updatedAt].
    repeat split; try (read_insert; reflexivity).
    + read_insert. destruct (d_description d) as [s|]; simpl in Hd; injection Hd as <-.
      * simpl. destruct (Str.is_empty (Str.trim s)); reflexivity.
      * reflexivity.
    + read_insert. rewrite due_of_json. apply due_revived.
    + read_insert. unfold Api.json_tags. simpl. rewrite filter_keeps_strings. reflexivity.
  - unfold Wire.dates_scalar, Routes.new_todo. repeat split; read_insert; try exact I.
    rewrite due_of_json. destruct (d_dueDate d); exact I.
Qed.


End TypedRecords.

(** *** The two stores as maps from ids *)







Section StoreViews.
Context `{Host}.








End StoreViews.

(** *** The mutators against the server *)

Section EndToEnd.
Context `{Host} `{!Api.HostLaws}.






End EndToEnd.

(** *** The bulk mutators against the server *)



Section BulkEndToEnd.
Context `{Host} `{!Api.HostLaws}.




End BulkEndToEnd.

Section ToggleEndToEnd.
Context `{Host} `{!Api.HostLaws}.




End ToggleEndToEnd.

(** *** The sample host and the sample stores *)

Lemma read_bits_bits (p : positive) : Sample.read_bits (Sample.bits p) = Some p.
Proof.
  induction p as [q IH|q IH|]; simpl; rewrite ?IH; try reflexivity.
Qed.

Lemma host_iso_laws : @Api.HostLaws Sample.host_iso.
Proof.
  split.
  - intros [|p|p]; simpl; rewrite ?read_bits_bits; reflexivity.
  - intros [|p|p]; discriminate.
Qed.


(** *** The claim *)


Section Claim3.
Context `{Host} `{!Api.HostLaws}.


End Claim3.



(** * Further properties of the code *)
(** ** The statistics, the tag list and the filter actions of the store *)

Lemma filter_length_le {A} (p q : A -> bool) (l : list A) :
  (forall x, p x = true -> q x = true) ->
  (length (List.filter p l) <= length (List.filter q l))%nat.
Proof.
  intros Hpq. induction l as [|a l IH]; simpl; [lia|].
  destruct (p a) eqn:Ep.
  - rewrite (Hpq a Ep). simpl. lia.
  - destruct (q a); simpl; lia.
Qed.

(** X1. The counts of [getStats] are consistent: every todo is counted
    either as completed or as active, and the overdue todos are among the
    active ones. *)
Theorem getStats_counts_are_consistent (now : Z) (st : TodoState) :
  TodoStats.total (getStats now st)
  = (TodoStats.completed (getStats now st) + TodoStats.active (getStats now st))%nat
  /\ (TodoStats.overdue (getStats now st) <= TodoStats.active (getStats now st))%nat.
Proof.
  unfold getStats. cbn [TodoStats.total TodoStats.completed TodoStats.active TodoStats.overdue].
  split.
  - symmetry. apply List.filter_length.
  - apply filter_length_le. intros t Ht. unfold counts_overdue in Ht.
    apply andb_true_iff in Ht. apply Ht.
Qed.

(** X2. The overdue count of [getStats] is the number of todos whose card
    shows the overdue mark, when both read the clock at the same instant. *)
Theorem overdue_count_matches_the_cards (now : Z) (st : TodoState) :
  TodoStats.overdue (getStats now st)
  = length (List.filter (TodoCard.isOverdue now) (todos st)).
Proof.
  unfold getStats. cbn [TodoStats.overdue]. f_equal.
  apply List.filter_ext. intros t. unfold counts_overdue, TodoCard.isOverdue.
  destruct (dueDate t); [reflexivity | apply andb_false_r].
Qed.

Lemma set_add_In (acc : list string) (x y : string) :
  In y (set_add acc x) <-> In y acc \/ y = x.
Proof.
  unfold set_add. destruct (includes_str acc x) eqn:E.
  - apply includes_str_In in E. split; [tauto|]. intros [Hy| ->]; assumption.
  - rewrite in_app_iff. simpl. intuition (subst; auto).
Qed.

Lemma fold_set_add_In (l acc : list string) (y : string) :
  In y (fold_left set_add l acc) <-> In y acc \/ In y l.
Proof.
  revert acc. induction l as [|x l IH]; intros acc; simpl; [tauto|].
  rewrite IH, set_add_In. split; intros H; intuition (subst; auto).
Qed.

Lemma fold_set_add_NoDup (l acc : list string) :
  List.NoDup acc -> List.NoDup (fold_left set_add l acc).
Proof.
  revert acc. induction l as [|x l IH]; intros acc Hacc; simpl; [exact Hacc|].
  apply IH. unfold set_add. destruct (includes_str acc x) eqn:E; [exact Hacc|].
  apply includes_str_not_In in E.
  apply List.NoDup_app; [exact Hacc | repeat constructor; simpl; tauto |].
  intros a Ha [<-|[]]. exact (E Ha).
Qed.

Lemma sort_insert_str_In (a y : string) (l : list string) :
  In y (sort_insert_str a l) <-> y = a \/ In y l.
Proof.
  induction l as [|b l IH]; simpl; [intuition auto|].
  destruct (String.leb a b); simpl; [intuition auto|].
  rewrite IH. intuition auto.
Qed.

Lemma sort_str_In (y : string) (l : list string) : In y (sort_str l) <-> In y l.
Proof.
  induction l as [|a l IH]; simpl; [tauto|].
  rewrite sort_insert_str_In, IH. intuition auto.
Qed.

Lemma str_lt_trans (a b c : string) :
  StoreSpec.str_lt a b -> StoreSpec.str_lt b c -> StoreSpec.str_lt a c.
Proof.
  unfold StoreSpec.str_lt. intros Hab Hbc.
  apply OrderedTypeEx.String_as_OT.cmp_lt.
  apply OrderedTypeEx.String_as_OT.cmp_lt in Hab, Hbc.
  eapply OrderedTypeEx.String_as_OT.lt_trans; eassumption.
Qed.

Lemma sort_insert_str_sorted (a : string) (l : list string) :
  ~ In a l -> StronglySorted StoreSpec.str_lt l ->
  StronglySorted StoreSpec.str_lt (sort_insert_str a l).
Proof.
  intros Hnot Hs. induction Hs as [|b l Hs IH Hb]; simpl.
  - constructor; constructor.
  - assert (Hab : a <> b) by (intros ->; apply Hnot; left; reflexivity).
    assert (Hal : ~ In a l) by (intros Hin; apply Hnot; right; exact Hin).
    unfold String.leb. destruct (String.compare a b) eqn:Ec.
    + apply String.compare_eq_iff in Ec. contradiction.
    + constructor; [constructor; assumption|].
      constructor; [exact Ec|].
      eapply Forall_impl; [exact Hb|]. intros c Hc.
      eapply str_lt_trans; [exact Ec | exact Hc].
    + assert (Hba : StoreSpec.str_lt b a).
      { unfold StoreSpec.str_lt. rewrite String.compare_antisym, Ec. reflexivity. }
      constructor; [apply IH; exact Hal|].
      apply List.Forall_forall. intros c Hc. apply sort_insert_str_In in Hc.
      destruct Hc as [->|Hc]; [exact Hba|].
      rewrite List.Forall_forall in Hb. apply Hb. exact Hc.
Qed.

Lemma sort_str_sorted (l : list string) :
  List.NoDup l -> StronglySorted StoreSpec.str_lt (sort_str l).
Proof.
  induction 1 as [|a l Ha Hl IH]; simpl; [constructor|].
  apply sort_insert_str_sorted; [|exact IH].
  rewrite sort_str_In. exact Ha.
Qed.

(** X3. [getAllTags] lists exactly the tags carried by some todo of the
    store. *)
Theorem getAllTags_lists_the_tags_in_use (st : TodoState) (tag : string) :
  In tag (getAllTags st) <-> exists todo, In todo (todos st) /\ In tag (tags todo).
Proof.
  unfold getAllTags, set_of. rewrite sort_str_In, fold_set_add_In, in_flat_map.
  simpl. tauto.
Qed.

(** X4. [getAllTags] is strictly increasing in the order of the code
    units: sorted, and no tag twice, however often the todos repeat it. *)
Theorem getAllTags_is_strictly_sorted (st : TodoState) :
  StronglySorted StoreSpec.str_lt (getAllTags st).
Proof.
  unfold getAllTags, set_of. apply sort_str_sorted, fold_set_add_NoDup. constructor.
Qed.

Lemma stage_free_view (st : TodoState) :
  TodoList.hasFilters (filter st) = false ->
  getFilteredTodos st = sort_newest_first (todos st).
Proof.
  destruct st as [ts [s p tg q] ld er ed]. unfold TodoList.hasFilters. simpl.
  intros H. repeat (apply orb_false_iff in H; destruct H as [H ?]).
  destruct s; [discriminate|]. destruct p; [discriminate|].
  unfold getFilteredTodos, search_stage, tags_stage, priority_stage, status_stage.
  simpl. destruct tg as [[|? ?]|]; try discriminate;
    destruct q as [[|? ?]|]; try discriminate; reflexivity.
Qed.

(** X5. When the list component finds no filter set, the filtered view
    holds every todo of the store, so an empty view means an empty
    store. *)
Theorem unfiltered_view_shows_every_todo (st : TodoState) :
  TodoList.hasFilters (filter st) = false ->
  Permutation (getFilteredTodos st) (todos st) /\
  (getFilteredTodos st = [] -> todos st = []).
Proof.
  intros H. rewrite (stage_free_view st H).
  split; [apply sort_newest_first_perm|].
  intros E. pose proof (sort_newest_first_perm (todos st)) as P.
  rewrite E in P. apply Permutation_nil. exact P.
Qed.

Lemma unfiltered_view_witness :
  Permutation (getFilteredTodos Sample.st1) (todos Sample.st1) /\
  (getFilteredTodos Sample.st1 = [] -> todos Sample.st1 = []).
Proof. apply unfiltered_view_shows_every_todo. reflexivity. Defined.

Lemma sort_insert_front (a : Todo) (l : list Todo) :
  Forall (fun x => createdAt x <= createdAt a) l -> sort_insert a l = a :: l.
Proof.
  destruct 1 as [|x l Hx _]; simpl; [reflexivity|].
  assert (E : (createdAt x - createdAt a <=? 0) = true) by (apply Z.leb_le; lia).
  rewrite E. reflexivity.
Qed.

Lemma filter_sort_insert (p : Todo -> bool) (a : Todo) (l : list Todo) :
  StronglySorted FilterSpec.newer_or_same l ->
  List.filter p (sort_insert a l)
  = if p a then sort_insert a (List.filter p l) else List.filter p l.
Proof.
  induction 1 as [|b l Hs IH Hb]; simpl.
  - destruct (p a); reflexivity.
  - destruct (createdAt b - createdAt a <=? 0) eqn:E; simpl.
    + destruct (p a) eqn:Pa; destruct (p b) eqn:Pb; simpl; try reflexivity.
      * rewrite E. reflexivity.
      * symmetry. apply sort_insert_front. apply Forall_filter_keep.
        apply Z.leb_le in E. eapply Forall_impl; [exact Hb|].
        unfold FilterSpec.newer_or_same. intros x Hx. lia.
    + rewrite IH. destruct (p b) eqn:Pb; destruct (p a) eqn:Pa; simpl;
        try rewrite E; reflexivity.
Qed.

(** Leaving todos out and sorting can be done in either order. *)
Lemma filter_sort_newest_first (p : Todo -> bool) (l : list Todo) :
  List.filter p (sort_newest_first l) = sort_newest_first (List.filter p l).
Proof.
  induction l as [|a l IH]; simpl; [reflexivity|].
  rewrite filter_sort_insert by apply sort_newest_first_sorted.
  rewrite IH. destruct (p a); reflexivity.
Qed.

(** X6. The view under any filter is the view after [clearFilter]
    with the todos that do not pass the filter left out, in the same
    order; after [clearFilter] no filter counts as set and the view holds
    every todo of the store. *)
Theorem every_view_is_part_of_the_full_view (st : TodoState) :
  getFilteredTodos st
  = List.filter (FilterSpec.passesb (filter st)) (getFilteredTodos (clearFilter st)) /\
  Permutation (getFilteredTodos (clearFilter st)) (todos st) /\
  TodoList.hasFilters (filter (clearFilter st)) = false.
Proof.
  change (getFilteredTodos (clearFilter st)) with (sort_newest_first (todos st)).
  split; [|split; [apply sort_newest_first_perm | reflexivity]].
  unfold getFilteredTodos. rewrite stages_filter. symmetry.
  apply filter_sort_newest_first.
Qed.

(** X7. A text typed into the search box narrows the view: the view is
    the one without a search with the todos the text does not hit left
    out, in the same order; the empty text leaves nothing out, although
    it is stored as the search. *)
Theorem search_narrows_the_view (value : string) (st : TodoState) :
  TodoFilter.search (filter (Header.handleSearchChange value st)) = Some value /\
  getFilteredTodos (Header.handleSearchChange value st)
  = List.filter
      (fun t => Str.is_empty value || search_hit (Str.toLowerCase value) t)
      (getFilteredTodos (setFilter (mkFilterPatch None None None (Some None)) st)).
Proof.
  split; [reflexivity|].
  destruct st as [ts [s p tg q] ld er ed].
  unfold Header.handleSearchChange, setFilter, merge_filter, getFilteredTodos.
  cbn [filter todos fp_status fp_priority fp_tags fp_search default
       TodoFilter.status TodoFilter.priority TodoFilter.tags TodoFilter.search].
  rewrite filter_sort_newest_first. f_equal.
  unfold search_stage at 1 2, status_stage, priority_stage, tags_stage.
  cbn [TodoFilter.status TodoFilter.priority TodoFilter.tags TodoFilter.search].
  destruct value as [|c v]; [|reflexivity].
  symmetry. apply filter_all.
Qed.

(** X8. [handleTagToggle] flips the membership of the tag in the filter's
    tag list and of no other tag, never leaves the empty list behind, and
    keeps the other fields of the filter and the todos. *)
Theorem handleTagToggle_flips_one_tag (tag : string) (st : TodoState) :
  TodoFilter.tags (filter (FilterDrawer.handleTagToggle tag st)) <> Some [] /\
  (forall t,
      In t (default [] (TodoFilter.tags (filter (FilterDrawer.handleTagToggle tag st))))
      <-> (t <> tag /\ In t (default [] (TodoFilter.tags (filter st))))
          \/ (t = tag /\ ~ In tag (default [] (TodoFilter.tags (filter st))))) /\
  TodoFilter.status (filter (FilterDrawer.handleTagToggle tag st))
  = TodoFilter.status (filter st) /\
  TodoFilter.priority (filter (FilterDrawer.handleTagToggle tag st))
  = TodoFilter.priority (filter st) /\
  TodoFilter.search (filter (FilterDrawer.handleTagToggle tag st))
  = TodoFilter.search (filter st) /\
  todos (FilterDrawer.handleTagToggle tag st) = todos st.
Proof.
  destruct st as [ts [s p tg q] ld er ed].
  unfold FilterDrawer.handleTagToggle, setFilter, merge_filter.
  cbn [filter todos fp_status fp_priority fp_tags fp_search
       TodoFilter.status TodoFilter.priority TodoFilter.tags TodoFilter.search].
  remember (default [] tg) as cur eqn:Ecur.
  remember (if includes_str cur tag
            then List.filter (fun t => negb (String.eqb t tag)) cur
            else cur ++ [tag]) as new eqn:Enew.
  assert (Hnew : forall t, In t new <->
            (t <> tag /\ In t cur) \/ (t = tag /\ ~ In tag cur)).
  { intros t. subst new. destruct (includes_str cur tag) eqn:E.
    - apply includes_str_In in E. rewrite List.filter_In.
      rewrite negb_true_iff. split.
      + intros [Hin Hne]. left. split; [|exact Hin].
        intros ->. rewrite String.eqb_refl in Hne. discriminate.
      + intros [[Hne Hin]|[_ Hn]]; [|contradiction]. split; [exact Hin|].
        apply String.eqb_neq. exact Hne.
    - apply includes_str_not_In in E. rewrite in_app_iff. simpl. split.
      + intros [Hin|[<-|[]]]; [left | right; auto].
        split; [|exact Hin]. intros ->. exact (E Hin).
      + intros [[_ Hin]|[-> _]]; auto. }
  clear Enew. simpl.
  split; [|split; [|repeat split]].
  - destruct new; simpl; discriminate.
  - intros t. rewrite <- Hnew. destruct new; reflexivity.
Qed.

(** X9. Every mutator leaves the flags of the store in order: one that
    issues no request leaves the state as it was; one that issues a
    request ends with [loading] off, without error when the request
    resolved, and with an error and the list as it was when it was
    rejected. *)
Theorem mutators_settle_the_flags
        (api : forall R, ApiCall R -> Settled R) (st : TodoState)
        (d : Draft) (i : string) (p : Patch) (ids : list string) (now : Z) :
  StoreSpec.settles api st (loadTodos st) /\
  StoreSpec.settles api st (TodoStore.addTodo d st) /\
  StoreSpec.settles api st (TodoStore.updateTodo i p st) /\
  StoreSpec.settles api st (TodoStore.deleteTodo i st) /\
  StoreSpec.settles api st (deleteTodos ids st) /\
  StoreSpec.settles api st (toggleTodo i st) /\
  StoreSpec.settles api st (toggleTodos now ids st).
Proof.
  assert (Hupd : forall q, StoreSpec.settles api st (TodoStore.updateTodo i q st)).
  { intros q. unfold StoreSpec.settles, TodoStore.updateTodo, run.
    destruct (api Todo (updateTodo_api i q)); simpl; eauto. }
  repeat split.
  - unfold run, loadTodos. destruct (api _ getTodos); reflexivity.
  - unfold run, loadTodos. destruct (api _ getTodos); reflexivity.
  - unfold run, loadTodos. destruct (api _ getTodos); simpl; eauto.
  - unfold run, TodoStore.addTodo. destruct (api _ (createTodo d)); reflexivity.
  - unfold run, TodoStore.addTodo. destruct (api _ (createTodo d)); reflexivity.
  - unfold run, TodoStore.addTodo. destruct (api _ (createTodo d)); simpl; eauto.
  - apply Hupd.
  - apply Hupd.
  - apply Hupd.
  - unfold run, TodoStore.deleteTodo. destruct (api _ (deleteTodo_api i)); reflexivity.
  - unfold run, TodoStore.deleteTodo. destruct (api _ (deleteTodo_api i)); reflexivity.
  - unfold run, TodoStore.deleteTodo. destruct (api _ (deleteTodo_api i)); simpl; eauto.
  - unfold run, deleteTodos. destruct (api _ (bulkDelete ids)); reflexivity.
  - unfold run, deleteTodos. destruct (api _ (bulkDelete ids)); reflexivity.
  - unfold run, deleteTodos. destruct (api _ (bulkDelete ids)); simpl; eauto.
  - unfold toggleTodo. destruct (List.find _ (todos st)); [apply Hupd | reflexivity].
  - unfold toggleTodos. destruct (List.find _ (todos st)) as [t|]; [|reflexivity].
    unfold StoreSpec.settles, run.
    destruct (api _ (bulkUpdate ids (patch_completed (negb (completed t)))));
      simpl; eauto.
Qed.

Lemma map_replace_absent (i : string) (t' : Todo) (l : list Todo) :
  Forall (fun t => id t <> i) l ->
  List.map (fun todo => if String.eqb (id todo) i then t' else todo) l = l.
Proof.
  induction 1 as [|t l Ht Hl IH]; simpl; [reflexivity|].
  apply String.eqb_neq in Ht. rewrite Ht, IH. reflexivity.
Qed.

Lemma lookup_map {A B} (f : A -> B) (l : list A) (n : nat) :
  List.map f l !! n = f <$> (l !! n).
Proof.
  revert n. induction l as [|a l IH]; intros [|n]; simpl; try reflexivity. apply IH.
Qed.

(** X10. A confirmed [updateTodo] keeps the length of the list, puts the
    answered todo in place of every todo with the id, leaves the list as
    it was when no todo has the id, and ends the edit in every case; a
    rejected one keeps the todo under edit. *)
Theorem updateTodo_replaces_in_place
        (api : forall R, ApiCall R -> Settled R) (st : TodoState)
        (i : string) (p : Patch) :
  match api _ (updateTodo_api i p) with
  | Resolved t' =>
      length (todos (run api (TodoStore.updateTodo i p st))) = length (todos st) /\
      (forall n t, todos st !! n = Some t ->
         todos (run api (TodoStore.updateTodo i p st)) !! n
         = Some (if String.eqb (id t) i then t' else t)) /\
      (Forall (fun t => id t <> i) (todos st) ->
         todos (run api (TodoStore.updateTodo i p st)) = todos st) /\
      editingTodo (run api (TodoStore.updateTodo i p st)) = None
  | Rejected =>
      editingTodo (run api (TodoStore.updateTodo i p st)) = editingTodo st
  end.
Proof.
  unfold run, TodoStore.updateTodo.
  destruct (api _ (updateTodo_api i p)) as [t'|]; [|reflexivity].
  cbn [todos editingTodo set_loading].
  split; [apply List.length_map|]. split; [|split; [apply map_replace_absent | reflexivity]].
  intros n t Hn. rewrite lookup_map, Hn. reflexivity.
Qed.

(** ** The route handlers, one request after the other *)



Section RouteRuns.
Context `{Host}.

Lemma GET_run (i : string) (s : State) :
  Routes.GET i s
  = (Ok (if hd false (faults s)
         then Routes.mkResponse (Routes.Error "Failed to fetch todo") 500%nat
         else match store_get (KStr i) (records s) with
              | None => Routes.mkResponse (Routes.Error "Todo not found") 404%nat
              | Some raw => Routes.json (Routes.TodoBody (revive raw))
              end),
     mkDB (records s) (tl (faults s))).
Proof.
  unfold Routes.GET, try_catch. rewrite bind_run, getAllTodos_run.
  destruct (hd false (faults s)); [reflexivity|].
  rewrite find_by_id_revive.
  destruct (store_get (KStr i) (records s)); reflexivity.
Qed.

Lemma DELETE_run (i : string) (s : State) :
  Routes.DELETE i s
  = if hd false (faults s)
    then (Ok (Routes.mkResponse (Routes.Error "Failed to delete todo") 500%nat),
          mkDB (records s) (tl (faults s)))
    else match store_get (KStr i) (records s) with
         | None => (Ok (Routes.mkResponse (Routes.Error "Todo not found") 404%nat),
                    mkDB (records s) (tl (faults s)))
         | Some _ =>
             if hd false (tl (faults s))
             then (Ok (Routes.mkResponse (Routes.Error "Failed to delete todo") 500%nat),
                   mkDB (records s) (tl (tl (faults s))))
             else (Ok (Routes.json (Routes.Message "Todo deleted successfully")),
                   mkDB (store_delete (KStr i) (records s)) (tl (tl (faults s))))
         end.
Proof.
  unfold Routes.DELETE, try_catch. rewrite bind_run, getAllTodos_run.
  destruct (hd false (faults s)); [reflexivity|].
  rewrite find_by_id_revive.
  destruct (store_get (KStr i) (records s)); cbn [option_map]; [|reflexivity].
  rewrite bind_run, deleteTodo_run. cbn [records faults valid_key].
  destruct (hd false (tl (faults s))); reflexivity.
Qed.

Lemma PATCH_run (i : string) (clock : nat -> Z) (body : Obj) (s : State) :
  Routes.PATCH i clock body s
  = if hd false (faults s)
    then (Ok (Routes.mkResponse (Routes.Error "Failed to patch todo") 500%nat),
          mkDB (records s) (tl (faults s)))
    else match store_get (KStr i) (records s) with
         | None => (Ok (Routes.mkResponse (Routes.Error "Todo not found") 404%nat),
                    mkDB (records s) (tl (faults s)))
         | Some raw =>
             match hd false (tl (faults s)),
                   key_of (Routes.merge_update (clock 0%nat) (revive raw) body) with
             | false, Some k =>
                 (Ok (Routes.json
                        (Routes.TodoBody
                           (Routes.merge_update (clock 0%nat) (revive raw) body))),
                  mkDB (store_put k (Routes.merge_update (clock 0%nat) (revive raw) body)
                                  (records s))
                       (tl (tl (faults s))))
             | _, _ =>
                 (Ok (Routes.mkResponse (Routes.Error "Failed to patch todo") 500%nat),
                  mkDB (records s) (tl (tl (faults s))))
             end
         end.
Proof.
  unfold Routes.PATCH, try_catch. rewrite bind_run, getAllTodos_run.
  destruct (hd false (faults s)); [reflexivity|].
  rewrite find_by_id_revive.
  destruct (store_get (KStr i) (records s)) as [raw|]; cbn [option_map]; [|reflexivity].
  rewrite bind_run, updateTodo_run. cbn [records faults].
  destruct (hd false (tl (faults s))); [reflexivity|].
  destruct (key_of _); reflexivity.
Qed.

Lemma PUT_run (i : string) (clock : nat -> Z) (body : Obj) (s : State) :
  Routes.PUT i clock body s
  = if negb (JS.is_undefined (JS.get body "title"))
       && (negb (JS.is_string (JS.get body "title"))
           || JS.trims_to_empty (JS.get body "title"))
    then (Ok (Routes.mkResponse (Routes.Error "Title must be a non-empty string") 400%nat),
          s)
    else
      match JS.opt_trim (JS.get body "title"),
            JS.opt_trim (JS.get body "description") with
      | Some title', Some description' =>
          if hd false (faults s)
          then (Ok (Routes.mkResponse (Routes.Error "Failed to update todo") 500%nat),
                mkDB (records s) (tl (faults s)))
          else
            match store_get (KStr i) (records s) with
            | None => (Ok (Routes.mkResponse (Routes.Error "Todo not found") 404%nat),
                       mkDB (records s) (tl (faults s)))
            | Some raw =>
                match hd false (tl (faults s)),
                      key_of (Routes.merge_update (clock 0%nat) (revive raw)
                                (Routes.drop_undefined
                                   (Routes.prepare_updates body title' description')))
                with
                | false, Some k =>
                    (Ok (Routes.json
                           (Routes.TodoBody
                              (Routes.merge_update (clock 0%nat) (revive raw)
                                 (Routes.drop_undefined
                                    (Routes.prepare_updates body title' description'))))),
                     mkDB (store_put k
                             (Routes.merge_update (clock 0%nat) (revive raw)
                                (Routes.drop_undefined
                                   (Routes.prepare_updates body title' description')))
                             (records s))
                          (tl (tl (faults s))))
                | _, _ =>
                    (Ok (Routes.mkResponse (Routes.Error "Failed to update todo") 500%nat),
                     mkDB (records s) (tl (tl (faults s))))
                end
            end
      | _, _ =>
          (Ok (Routes.mkResponse (Routes.Error "Failed to update todo") 500%nat), s)
      end.
Proof.
  unfold Routes.PUT, try_catch.
  destruct (negb (JS.is_undefined (JS.get body "title")) && _); [reflexivity|].
  rewrite bind_lift.
  destruct (JS.opt_trim (JS.get body "title")) as [title'|]; [|reflexivity].
  rewrite bind_lift.
  destruct (JS.opt_trim (JS.get body "description")) as [description'|]; [|reflexivity].
  rewrite bind_run, getAllTodos_run.
  destruct (hd false (faults s)); [reflexivity|].
  rewrite find_by_id_revive.
  destruct (store_get (KStr i) (records s)) as [raw|]; cbn [option_map]; [|reflexivity].
  rewrite bind_run, updateTodo_run. cbn [records faults].
  destruct (hd false (tl (faults s))); [reflexivity|].
  destruct (key_of _); reflexivity.
Qed.





(** X14. The single-resource [PUT] checks the title before it looks the
    todo up: a title that is present but is not a string, or is blank, is
    answered 400 without a request to the store, whether or not a todo
    has the id. *)
Theorem PUT_checks_the_title_first
        (i : string) (clock : nat -> Z) (body : Obj) (s : State) :
  JS.get body "title" <> VUndefined ->
  (forall t, JS.get body "title" = VStr t -> Str.trim t = EmptyString) ->
  Routes.PUT i clock body s
  = (Ok (Routes.mkResponse (Routes.Error "Title must be a non-empty string") 400%nat), s).
Proof.
  intros Hdef Hblank. rewrite PUT_run.
  destruct (JS.get body "title") as [| |b|n|t|d|l|o]; try reflexivity.
  - contradiction.
  - simpl. rewrite (Hblank t eq_refl). reflexivity.
Qed.




(** X18. When the platform fails the first request of a handler, the
    answer is 500 and the store keeps its records; [PUT] and [POST] may
    have answered 400 before they reached the store. *)
Theorem failed_first_request_is_answered_500
        (i newId : string) (clock : nat -> Z) (body updates : Obj)
        (i0 : Val) (rest : list Val) (s : State) :
  hd false (faults s) = true ->
  RouteSpec.answers (Routes.GET i s) 500 (records s) /\
  RouteSpec.answers (Routes.PATCH i clock body s) 500 (records s) /\
  RouteSpec.answers (Routes.DELETE i s) 500 (records s) /\
  RouteSpec.answers (Routes.PUT_bulk clock (VArr (i0 :: rest)) updates s) 500 (records s) /\
  (RouteSpec.answers (Routes.PUT i clock body s) 400 (records s) \/
   RouteSpec.answers (Routes.PUT i clock body s) 500 (records s)) /\
  (RouteSpec.answers (Routes.POST newId clock body s) 400 (records s) \/
   RouteSpec.answers (Routes.POST newId clock body s) 500 (records s)).
Proof.
  intros H1.
  split; [rewrite GET_run, H1; eexists; repeat split; reflexivity|].
  split; [rewrite PATCH_run, H1; eexists; repeat split; reflexivity|].
  split; [rewrite DELETE_run, H1; eexists; repeat split; reflexivity|].
  split.
  { unfold Routes.PUT_bulk, try_catch. rewrite bind_run, getAllTodos_run, H1.
    eexists. repeat split; reflexivity. }
  split.
  - rewrite PUT_run.
    destruct (negb (JS.is_undefined (JS.get body "title")) && _).
    { left. eexists. repeat split; reflexivity. }
    right. destruct (JS.opt_trim (JS.get body "title"));
      [destruct (JS.opt_trim (JS.get body "description"))|];
      try rewrite H1; eexists; repeat split; reflexivity.
  - destruct (POST_cases newId clock body s)
      as [[_ Hrun] | [(_ & _ & s' & Hrun & Hrec) | (_ & t & d' & _ & _ & Hf & _)]].
    + left. cbv zeta in Hrun. rewrite Hrun. eexists. repeat split; reflexivity.
    + right. cbv zeta in Hrun. rewrite Hrun. eexists.
      split; [reflexivity|]. split; [reflexivity | exact Hrec].
    + congruence.
Qed.





Lemma map_filter_sublist {A B} (f : A -> B) (p : A -> bool) (q : B -> bool)
      (l : list A) :
  sublist (List.filter q (List.map f (List.filter p l))) (List.map f l).
Proof.
  induction l as [|a l IH]; simpl; [constructor|].
  destruct (p a); simpl.
  - destruct (q (f a)); [apply sublist_skip | apply sublist_cons]; exact IH.
  - apply sublist_cons. exact IH.
Qed.

(** X21. [getTodosByFilter] uses up the same request as [getAllTodos]
    and leaves the store alike; when the read goes through it returns
    part of what [getAllTodos] returns, in the same order, and all of it
    when the filter sets neither field or only an empty priority; when
    the read fails both reject. *)
Theorem getTodosByFilter_is_part_of_getAllTodos (f : ByFilter) (s : State) :
  after (getTodosByFilter f s) = after (getAllTodos s) /\
  match outcome (getAllTodos s) with
  | Ok all =>
      exists l, outcome (getTodosByFilter f s) = Ok l /\ sublist l all /\
                (bf_completed f = None ->
                 bf_priority f = None \/ bf_priority f = Some EmptyString ->
                 l = all)
  | Throw => outcome (getTodosByFilter f s) = Throw
  end.
Proof.
  rewrite getAllTodos_run. unfold getTodosByFilter.
  rewrite bind_run, request_eq.
  destruct (hd false (faults s)); unfold outcome, after; cbn [fst snd].
  { split; reflexivity. }
  unfold bind, read_records, ret. cbn [fst snd records].
  split; [reflexivity|]. eexists. split; [reflexivity|]. split.
  - destruct (bf_completed f) as [c|]; destruct (bf_priority f) as [[|c0 p]|].
    + rewrite <- (filter_all (records s)) at 1. apply map_filter_sublist.
    + apply map_filter_sublist.
    + rewrite <- (filter_all (records s)) at 1. apply map_filter_sublist.
    + reflexivity.
    + rewrite <- (filter_all (List.map revive _)).
      apply map_filter_sublist.
    + reflexivity.
  - intros -> [-> | ->]; reflexivity.
Qed.

Lemma revive_revive (r : Obj) : revive (revive r) = revive r.
Proof.
  unfold revive at 1.
  rewrite get_revive_createdAt, get_revive_updatedAt, get_revive_dueDate.
  rewrite !newDate_idem.
  assert (Hd : (if JS.truthy (if JS.truthy (JS.get r "dueDate")
                              then JS.newDate (JS.get r "dueDate") else VUndefined)
                then JS.newDate (if JS.truthy (JS.get r "dueDate")
                                 then JS.newDate (JS.get r "dueDate") else VUndefined)
                else VUndefined)
               = if JS.truthy (JS.get r "dueDate")
                 then JS.newDate (JS.get r "dueDate") else VUndefined).
  { destruct (JS.truthy (JS.get r "dueDate")); [|reflexivity].
    rewrite newDate_truthy, newDate_idem. reflexivity. }
  rewrite Hd.
  rewrite (insert_id (revive r) "createdAt").
  2:{ unfold revive. rewrite !lookup_insert_ne by discriminate. apply lookup_insert_eq. }
  rewrite (insert_id (revive r) "updatedAt").
  2:{ unfold revive. rewrite !lookup_insert_ne by discriminate. apply lookup_insert_eq. }
  apply insert_id. unfold revive. apply lookup_insert_eq.
Qed.

(** X22. [getAllTodos] does not write; what it returns has one record
    per stored record, each with dates in [createdAt] and [updatedAt] and
    a date or nothing in [dueDate], and the mapping it applies changes
    none of them when applied again. *)
Theorem getAllTodos_hands_out_dates (s : State) (l : list Obj) :
  records (after (getAllTodos s)) = records s /\
  (outcome (getAllTodos s) = Ok l ->
   length l = length (records s) /\
   Forall (fun r => RouteSpec.is_date (JS.get r "createdAt") /\
                    RouteSpec.is_date (JS.get r "updatedAt") /\
                    (JS.get r "dueDate" = VUndefined \/
                     RouteSpec.is_date (JS.get r "dueDate"))) l /\
   List.map revive l = l).
Proof.
  rewrite getAllTodos_run. unfold outcome, after. cbn [fst snd records].
  split; [reflexivity|].
  destruct (hd false (faults s)); [discriminate|]. intros [= <-].
  split; [apply List.length_map|]. split.
  - apply List.Forall_forall. intros r Hr. apply in_map_iff in Hr as (raw & <- & _).
    assert (Hdate : forall v, RouteSpec.is_date (JS.newDate v)).
    { intros v. destruct v; eexists; reflexivity. }
    rewrite get_revive_createdAt, get_revive_updatedAt, get_revive_dueDate.
    split; [apply Hdate|]. split; [apply Hdate|].
    destruct (JS.truthy (JS.get raw "dueDate")); [right; apply Hdate | left; reflexivity].
  - rewrite List.map_map. apply List.map_ext. intros r. apply revive_revive.
Qed.

End RouteRuns.



Lemma PUT_checks_the_title_witness :
  @Routes.PUT Sample.host0 "2" (fun _ => 99) Sample.body_blank_title Sample.db0
  = (Ok (Routes.mkResponse (Routes.Error "Title must be a non-empty string") 400%nat),
     Sample.db0).
Proof.
  apply PUT_checks_the_title_first.
  - vm_compute. discriminate.
  - intros t Ht. vm_compute in Ht. injection Ht as <-. reflexivity.
Defined.




Lemma failed_first_request_witness :
  RouteSpec.answers (@Routes.GET Sample.host0 "1" Sample.db_first_fails) 500
                    (records Sample.db_first_fails).
Proof.
  refine (proj1 (@failed_first_request_is_answered_500 Sample.host0 "1" "n1"
                   (fun _ => 99) Sample.body_toggle Sample.body_toggle
                   (VStr "1") [] Sample.db_first_fails _)).
  reflexivity.
Defined.


(** ** The interface store and the components *)

Section InterfaceFacts.
Import UIStore.

Lemma toggle_member (l : list string) (x t : string) :
  In t (if includes_str l x
        then List.filter (fun i => negb (String.eqb i x)) l
        else l ++ [x])
  <-> (t <> x /\ In t l) \/ (t = x /\ ~ In x l).
Proof.
  destruct (includes_str l x) eqn:E.
  - apply includes_str_In in E. rewrite List.filter_In, negb_true_iff. split.
    + intros [Hin Hne]. left. split; [|exact Hin].
      intros ->. rewrite String.eqb_refl in Hne. discriminate.
    + intros [[Hne Hin]|[_ Hn]]; [|contradiction]. split; [exact Hin|].
      apply String.eqb_neq. exact Hne.
  - apply includes_str_not_In in E. rewrite in_app_iff. simpl. split.
    + intros [Hin|[<-|[]]]; [left | right; auto].
      split; [|exact Hin]. intros ->. exact (E Hin).
    + intros [[_ Hin]|[-> _]]; auto.
Qed.

Lemma toggle_NoDup (l : list string) (x : string) :
  List.NoDup l ->
  List.NoDup (if includes_str l x
              then List.filter (fun i => negb (String.eqb i x)) l
              else l ++ [x]).
Proof.
  intros Hl. destruct (includes_str l x) eqn:E.
  - apply List.NoDup_filter. exact Hl.
  - apply includes_str_not_In in E.
    apply List.NoDup_app; [exact Hl | repeat constructor; simpl; tauto|].
    intros a Ha [<-|[]]. exact (E Ha).
Qed.

(** X23. [toggleTodoSelection] flips the membership of the id in the
    selection and of no other id, keeps a selection free of duplicates so,
    and leaves the bulk mode as it is. *)
Theorem toggleTodoSelection_flips_one_id (todoId : string) (u : UIState) :
  (forall j,
      In j (selectedTodoIds (toggleTodoSelection todoId u))
      <-> (j <> todoId /\ In j (selectedTodoIds u))
          \/ (j = todoId /\ ~ In todoId (selectedTodoIds u))) /\
  (List.NoDup (selectedTodoIds u) ->
   List.NoDup (selectedTodoIds (toggleTodoSelection todoId u))) /\
  isBulkMode (toggleTodoSelection todoId u) = isBulkMode u.
Proof.
  unfold toggleTodoSelection, set_selection. cbn [selectedTodoIds isBulkMode].
  split; [intros j; apply toggle_member|].
  split; [apply toggle_NoDup | reflexivity].
Qed.

(** X24. [toggleBulkMode] inverts the mode and empties the selection
    when it leaves the mode; [handleExitBulkMode], which clears the
    selection and then toggles, ends with the selection empty and the
    bulk mode on, whatever the state before. *)
Theorem handleExitBulkMode_ends_in_bulk_mode (u : UIState) :
  isBulkMode (toggleBulkMode u) = negb (isBulkMode u) /\
  (isBulkMode u = true -> selectedTodoIds (toggleBulkMode u) = []) /\
  (isBulkMode u = false -> selectedTodoIds (toggleBulkMode u) = selectedTodoIds u) /\
  isBulkMode (TodoList.handleExitBulkMode u) = true /\
  selectedTodoIds (TodoList.handleExitBulkMode u) = [].
Proof.
  unfold TodoList.handleExitBulkMode, toggleBulkMode, clearSelection, set_selection.
  cbn [selectedTodoIds isBulkMode].
  split; [reflexivity|].
  split; [intros ->; reflexivity|].
  split; [intros ->; reflexivity|].
  split; reflexivity.
Qed.

(** X25. [cycleTheme] goes from light to dark, from dark to system and
    from system to light: it never keeps the theme, three steps give the
    state back, and nothing but the theme changes. *)
Theorem cycleTheme_has_period_three (u : UIState) :
  theme (Header.cycleTheme u) <> theme u /\
  Header.cycleTheme (Header.cycleTheme (Header.cycleTheme u)) = u /\
  setTheme (theme u) (Header.cycleTheme u) = u.
Proof.
  destruct u as [a b c d e f g t h i j k].
  destruct t; (split; [discriminate|]); split; reflexivity.
Qed.

(** X26. With todos on show, [handleSelectAll] inverts "all selected":
    from a selection that does not count as all it selects the ids on
    show and keeps the mode; from one that does it empties the selection
    and also leaves the bulk mode. *)
Theorem handleSelectAll_inverts_all_selected (shown : list Todo) (u : UIState) :
  shown <> [] ->
  TodoList.allSelected shown (TodoList.handleSelectAll shown u)
  = negb (TodoList.allSelected shown u) /\
  (TodoList.allSelected shown u = false ->
   selectedTodoIds (TodoList.handleSelectAll shown u) = List.map id shown /\
   isBulkMode (TodoList.handleSelectAll shown u) = isBulkMode u) /\
  (TodoList.allSelected shown u = true ->
   selectedTodoIds (TodoList.handleSelectAll shown u) = [] /\
   isBulkMode (TodoList.handleSelectAll shown u) = false).
Proof.
  intros Hshown. unfold TodoList.handleSelectAll.
  destruct (TodoList.allSelected shown u) eqn:Eall.
  - split; [|split; [discriminate | intros _; split; reflexivity]].
    unfold TodoList.allSelected, clearSelection, set_selection.
    cbn [selectedTodoIds]. destruct shown as [|t shown]; [contradiction|]. reflexivity.
  - split; [|split; [intros _; split; reflexivity | discriminate]].
    unfold TodoList.allSelected, selectAllTodos, set_selection.
    cbn [selectedTodoIds]. rewrite List.length_map, Nat.eqb_refl.
    destruct shown as [|t shown]; [contradiction|]. reflexivity.
Qed.

Lemma handleSelectAll_witness :
  TodoList.allSelected (todos Sample.st0)
    (TodoList.handleSelectAll (todos Sample.st0) Sample.ui_bulk)
  = negb (TodoList.allSelected (todos Sample.st0) Sample.ui_bulk).
Proof.
  refine (proj1 (handleSelectAll_inverts_all_selected
                   (todos Sample.st0) Sample.ui_bulk _)).
  discriminate.
Defined.

End InterfaceFacts.

(** ** The form *)

Lemma lower_ascii_idem (c : ascii) :
  Str.lower_ascii (Str.lower_ascii c) = Str.lower_ascii c.
Proof. destruct c as [[] [] [] [] [] [] [] []]; reflexivity. Qed.

Lemma toLowerCase_idem (s : string) :
  Str.toLowerCase (Str.toLowerCase s) = Str.toLowerCase s.
Proof.
  induction s as [|c s IH]; simpl; [reflexivity|].
  rewrite lower_ascii_idem, IH. reflexivity.
Qed.

(** X27. The tag handlers of the form keep its tags distinct, not empty
    and in lower case; [handleAddTag] adds at most the trimmed,
    lower-cased input, at the end, and [handleRemoveTag] removes the tag
    and nothing else. *)
Theorem form_tags_stay_clean (fs : TodoForm.FormState) (tagToRemove : string) :
  FormSpec.clean_tags (TodoForm.tags (TodoForm.formData fs)) ->
  FormSpec.clean_tags (TodoForm.tags (TodoForm.formData (TodoForm.handleAddTag fs))) /\
  FormSpec.clean_tags
    (TodoForm.tags (TodoForm.formData (TodoForm.handleRemoveTag tagToRemove fs))) /\
  (TodoForm.tags (TodoForm.formData (TodoForm.handleAddTag fs))
   = TodoForm.tags (TodoForm.formData fs)
   \/ TodoForm.tags (TodoForm.formData (TodoForm.handleAddTag fs))
      = TodoForm.tags (TodoForm.formData fs)
        ++ [Str.toLowerCase (Str.trim (TodoForm.tagInput fs))]) /\
  (forall t, In t (TodoForm.tags (TodoForm.formData (TodoForm.handleRemoveTag tagToRemove fs)))
             <-> In t (TodoForm.tags (TodoForm.formData fs)) /\ t <> tagToRemove).
Proof.
  intros [Hnd Hall].
  split; [|split; [|split]].
  - unfold TodoForm.handleAddTag.
    destruct (negb (Str.is_empty _) && negb (includes_str _ _)) eqn:E;
      [|split; assumption].
    apply andb_true_iff in E as [Hne Hnin].
    apply negb_true_iff in Hne, Hnin. apply includes_str_not_In in Hnin.
    cbn [TodoForm.formData TodoForm.tags TodoForm.with_tags]. split.
    + apply List.NoDup_app; [exact Hnd | repeat constructor; simpl; tauto|].
      intros a Ha [<-|[]]. exact (Hnin Ha).
    + apply Forall_app. split; [exact Hall|]. constructor; [|constructor].
      split; [|apply toLowerCase_idem].
      intros Hempty. rewrite Hempty in Hne. discriminate.
  - unfold TodoForm.handleRemoveTag.
    cbn [TodoForm.formData TodoForm.tags TodoForm.with_tags]. split.
    + apply List.NoDup_filter. exact Hnd.
    + apply Forall_filter_keep. exact Hall.
  - unfold TodoForm.handleAddTag.
    destruct (negb (Str.is_empty _) && negb (includes_str _ _)); [right | left];
      reflexivity.
  - intros t. unfold TodoForm.handleRemoveTag.
    cbn [TodoForm.formData TodoForm.tags TodoForm.with_tags].
    rewrite List.filter_In, negb_true_iff. split.
    + intros [Hin Hne]. split; [exact Hin|]. apply String.eqb_neq. exact Hne.
    + intros [Hin Hne]. split; [exact Hin|]. apply String.eqb_neq. exact Hne.
Qed.

Lemma form_tags_witness :
  FormSpec.clean_tags
    (TodoForm.tags (TodoForm.formData (TodoForm.handleAddTag Sample.form_state))).
Proof.
  refine (proj1 (form_tags_stay_clean Sample.form_state "home" _)).
  split.
  - repeat constructor; simpl; intuition discriminate.
  - repeat constructor; discriminate.
Defined.

(** *** Trimming twice *)

Lemma trim_start_head (s : string) : FormSpec.head_kept (Str.trim_start s).
Proof.
  induction s as [|c s IH]; simpl; [exact I|].
  destruct (Str.is_space c) eqn:E; [exact IH | exact E].
Qed.

Lemma trim_end_head (s : string) : FormSpec.head_kept s -> FormSpec.head_kept (Str.trim_end s).
Proof.
  destruct s as [|c s]; simpl; [tauto|]. intros Hc.
  destruct (Str.trim_end s); [rewrite Hc|]; exact Hc.
Qed.

Lemma trim_start_kept (s : string) : FormSpec.head_kept s -> Str.trim_start s = s.
Proof. destruct s as [|c s]; simpl; [reflexivity|]. intros ->. reflexivity. Qed.

Lemma trim_end_idem (s : string) : Str.trim_end (Str.trim_end s) = Str.trim_end s.
Proof.
  induction s as [|c s IH]; [reflexivity|].
  cbn [Str.trim_end]. destruct (Str.trim_end s) as [|c' r] eqn:E.
  - destruct (Str.is_space c) eqn:Ec; [reflexivity|].
    cbn [Str.trim_end]. rewrite Ec. reflexivity.
  - change (match Str.trim_end (String c' r) with
            | EmptyString => if Str.is_space c then EmptyString else String c EmptyString
            | String a b => String c (String a b)
            end = String c (String c' r)).
    rewrite IH. reflexivity.
Qed.

Lemma trim_idem (s : string) : Str.trim (Str.trim s) = Str.trim s.
Proof.
  unfold Str.trim.
  rewrite (trim_start_kept (Str.trim_end (Str.trim_start s)))
    by apply trim_end_head, trim_start_head.
  apply trim_end_idem.
Qed.

(** ** From the client to the store and back *)

Section ClientRuns.
Context `{Host} `{!Api.HostLaws}.

Lemma draft_title_accepted (d : Draft) :
  Str.trim (d_title d) <> EmptyString ->
  Routes.rejects_title (JS.get (Api.json_of_draft d) "title") = false.
Proof.
  intros Htitle. destruct (json_of_draft_fields d) as (Bt & _). cbv zeta in Bt.
  rewrite Bt. unfold Routes.rejects_title. simpl.
  destruct (d_title d) as [|c t]; [contradiction Htitle; reflexivity|]. simpl.
  destruct (Str.trim (String c t)); [contradiction Htitle; reflexivity | reflexivity].
Qed.

Lemma call_createTodo_typed (d : Draft) (newId : string) (clock : nat -> Z) (db : State) :
  Str.trim (d_title d) <> EmptyString ->
  next_ok db -> store_get (KStr newId) (records db) = None ->
  exists u,
    Wire.as_todo (revive u) = Some (Api.create_from d newId clock) /\
    Api.call_createTodo newId clock d db
    = (Some (Resolved (Api.create_from d newId clock)),
       mkDB (store_put (KStr newId) u (records db)) (tl (faults db))) /\
    key_of u = Some (KStr newId).
Proof.
  intros Htitle Hok Hfree. unfold Api.call_createTodo. cbv zeta.
  pose proof (draft_title_accepted d Htitle) as Hacc.
  destruct (json_of_draft_fields d) as (Bt & Bd & Bp & Bdue & Btg). cbv zeta in *.
  destruct (POST_cases newId clock (Api.json_of_draft d) db)
    as [[Hrej _] | [(_ & Hwhy & _) | (_ & t & d' & Ht & Hd & _ & _ & Hrun)]].
  - congruence.
  - exfalso. destruct Hwhy as [Hd|[Hf|[old Hold]]].
    + rewrite Bd in Hd. destruct (d_description d); discriminate Hd.
    + unfold next_ok in Hok. congruence.
    + congruence.
  - cbv zeta in Hrun. rewrite Hrun. cbn [fst snd].
    rewrite Bt in Ht. injection Ht as <-. rewrite Bd in Hd.
    rewrite Bp, Bdue, Btg.
    destruct (new_todo_typed d newId clock d' Hd) as [Hreads Hscalar].
    cbv zeta in Hreads, Hscalar. apply as_todo_reads in Hreads.
    eexists. split; [exact Hreads|]. split; [|apply key_of_new_todo].
    unfold Api.settle_todo. cbn [Api.ok Routes.status Routes.payload].
    simpl Nat.leb. cbn [andb].
    rewrite (client_read_revive _ _ Hreads Hscalar). reflexivity.
Qed.

(** X28. [api.createTodo], from the draft to the answer read by the
    client: when the title is not blank, the id is free and the platform
    lets the request through, the helper resolves to the todo with the
    trimmed title and description, the tags that are not blank, the
    server's time stamps and [completed] off whatever the draft says, and
    this is the todo the store holds under the id afterwards. *)
Theorem createTodo_resolves_to_the_created_todo
        (d : Draft) (newId : string) (clock : nat -> Z) (db : State) :
  Str.trim (d_title d) <> EmptyString ->
  next_ok db -> store_get (KStr newId) (records db) = None ->
  fst (Api.call_createTodo newId clock d db)
  = Some (Resolved (Api.create_from d newId clock)) /\
  Api.durable newId (snd (Api.call_createTodo newId clock d db))
  = Some (Some (Api.create_from d newId clock)) /\
  completed (Api.create_from d newId clock) = false.
Proof.
  intros Htitle Hok Hfree.
  destruct (call_createTodo_typed d newId clock db Htitle Hok Hfree)
    as (u & Hu & Hcall & Hk).
  rewrite Hcall. cbn [fst snd]. split; [reflexivity|]. split; [|reflexivity].
  unfold Api.durable. cbn [records]. rewrite (store_get_put _ _ _ Hk).
  simpl. rewrite Hu. reflexivity.
Qed.


(** X30. A form that passes [validateForm] in add mode is never turned
    down for its content: [handleSubmit] starts [addTodo], and when the
    server answers on a platform that lets the request through, the new
    todo is put in front of the list with the trimmed title, the
    description trimmed or left out when blank, [completed] off, and a
    due date, if one was entered, that is not before today. *)
Theorem submitted_form_becomes_the_first_todo
        (due today : Z) (d : TodoForm.TodoFormData) (st : TodoState)
        (newId : string) (clock : nat -> Z) (db : State)
        (api : forall R, ApiCall R -> Settled R) :
  TodoForm.validateForm (Some due) today d = true ->
  next_ok db -> store_get (KStr newId) (records db) = None ->
  Some (api _ (createTodo (TodoForm.todoData due false d)))
  = fst (Api.call_createTodo newId clock (TodoForm.todoData due false d) db) ->
  exists m,
    TodoForm.handleSubmit_add due today d st = Some m /\
    todos (run api m)
    = mkTodo newId (Str.trim (TodoForm.title d))
        (if Str.is_empty (Str.trim (TodoForm.description d)) then None
         else Some (Str.trim (TodoForm.description d)))
        false (TodoForm.priority d)
        (if Str.is_empty (TodoForm.dueDate d) then None else Some due)
        (List.filter (fun s => negb (Str.is_empty (Str.trim s))) (TodoForm.tags d))
        (clock 0%nat) (clock 1%nat)
      :: todos st /\
    error (run api m) = None /\ loading (run api m) = false /\
    (Str.is_empty (TodoForm.dueDate d) = false -> today <= due).
Proof.
  intros Hvalid Hok Hfree Hapi.
  unfold TodoForm.handleSubmit_add. rewrite Hvalid.
  eexists. split; [reflexivity|].
  unfold TodoForm.validateForm in Hvalid.
  apply andb_true_iff in Hvalid as [Htitle Hdue].
  apply negb_true_iff in Htitle.
  assert (Hne : Str.trim (d_title (TodoForm.todoData due false d)) <> EmptyString).
  { cbn [TodoForm.todoData d_title]. rewrite trim_idem.
    intros E. rewrite E in Htitle. discriminate. }
  destruct (call_createTodo_typed _ newId clock db Hne Hok Hfree) as (u & _ & Hcall & _).
  rewrite Hcall in Hapi. cbn [fst] in Hapi. injection Hapi as Hapi.
  unfold TodoStore.addTodo, run. rewrite Hapi.
  cbn [todos error loading set_todos set_loading].
  split; [|split; [reflexivity|split; [reflexivity|]]].
  - f_equal. unfold Api.create_from, TodoForm.todoData.
    cbn [d_title d_description d_priority d_dueDate d_tags].
    rewrite trim_idem. f_equal.
    destruct (Str.is_empty (Str.trim (TodoForm.description d))) eqn:Ed; [reflexivity|].
    rewrite trim_idem, Ed. reflexivity.
  - intros Hset. rewrite Hset in Hdue. cbn [orb] in Hdue.
    apply negb_true_iff, Z.ltb_ge in Hdue. exact Hdue.
Qed.

End ClientRuns.

Lemma createTodo_resolves_witness :
  fst (@Api.call_createTodo Sample.host_iso "n1" (fun _ => 99) Sample.draft_rent
         Sample.db0)
  = Some (Resolved (Api.create_from Sample.draft_rent "n1" (fun _ => 99))).
Proof.
  refine (proj1 (@createTodo_resolves_to_the_created_todo Sample.host_iso host_iso_laws
                   Sample.draft_rent "n1" (fun _ => 99) Sample.db0 _ _ _)).
  - vm_compute. discriminate.
  - reflexivity.
  - vm_compute. reflexivity.
Defined.


Lemma submitted_form_witness :
  exists m,
    TodoForm.handleSubmit_add 2000 1000 Sample.form_rent Sample.st0 = Some m /\
    error (run Sample.api_server m) = None.
Proof.
  destruct (@submitted_form_becomes_the_first_todo Sample.host_iso host_iso_laws
              2000 1000 Sample.form_rent Sample.st0 "n1" (fun _ => 99)
              Sample.db0 Sample.api_server)
    as (m & Hm & _ & Herr & _).
  - reflexivity.
  - reflexivity.
  - vm_compute. reflexivity.
  - vm_compute. reflexivity.
  - exists m. split; [exact Hm | exact Herr].
Defined.
